(** * Nonlinear solvers: Newton-Raphson, bisection and their combinator

    A shallow embedding of [nonlinear_solvers/solvers.py].

    The Python code is duck typed over its numbers: it only uses the
    literals [0] and [2], the operators [+ - * /], [abs] and the
    comparisons [> < >= ==].  The embedding is therefore written once over
    a class [Number] holding exactly these operations, and instantiated
    twice: with IEEE binary64 floats (Python's [float]) and with normalised
    rationals (Python's [fractions.Fraction]).

    Exceptions are values of an error monad; a [while] loop with no bound
    of its own is run on fuel. *)

From Stdlib Require Import ZArith Bool List String Lia.
From Stdlib Require Import DecimalString DecimalZ DecimalPos.
From Stdlib Require Import Floats.
From Stdlib Require Import QArith Qcanon Qcabs Lqa.
Import ListNotations.

Local Open Scope string_scope.
Local Open Scope Z_scope.

(** ** Exceptions and outcomes *)

(** The exceptions that can cross the three functions.  [ConvergenceError]
    is the module's own class (a direct subclass of [Exception]);
    [ValueError] and [ZeroDivisionError] are the builtins; [OtherError]
    stands for any exception of an unrelated class raised by the caller's
    [f] or [df].  Python catches by class: an instance of a subclass of
    ConvergenceError or of ValueError stands under its base's
    constructor. *)
Inductive exn : Type :=
| ConvergenceError (msg : string)
| ValueError (msg : string)
| ZeroDivisionError
| OtherError (name : string).

(** [except ConvergenceError:] *)
Definition is_ConvergenceError (e : exn) : bool :=
  match e with ConvergenceError _ => true | _ => false end.

(** [except ValueError:] *)
Definition is_ValueError (e : exn) : bool :=
  match e with ValueError _ => true | _ => false end.

(** What running a piece of code gives: a value, an exception, or
    [OutOfFuel] when a loop was still running when the fuel ran out. *)
Inductive outcome (A : Type) : Type :=
| Return (a : A)
| Raise (e : exn)
| OutOfFuel.

Arguments Return {A} a.
Arguments Raise {A} e.
Arguments OutOfFuel {A}.

Definition bind {A B : Type} (c : outcome A) (k : A -> outcome B) : outcome B :=
  match c with
  | Return a => k a
  | Raise e => Raise e
  | OutOfFuel => OutOfFuel
  end.

Declare Scope py_scope.
Delimit Scope py_scope with py.
Notation "x <- c ;; k" := (bind c (fun x => k))
  (at level 61, c at next level, right associativity) : py_scope.

(** ** Numbers *)

(** The operations the source applies to its numbers.  [num_div] is [None]
    where Python raises [ZeroDivisionError]; every builtin numeric type
    does so on a zero divisor, which is the one law of the class.  The
    other operations are total and [/] raises nothing else: the class
    covers floats and Fractions, not Python's unbounded ints, whose [/]
    raises OverflowError on a quotient too large for a float. *)
Class Number (T : Type) : Type := {
  zero : T;
  two : T;
  num_add : T -> T -> T;
  num_sub : T -> T -> T;
  num_mul : T -> T -> T;
  num_div : T -> T -> option T;
  num_abs : T -> T;
  num_gtb : T -> T -> bool;
  num_ltb : T -> T -> bool;
  num_geb : T -> T -> bool;
  num_eqb : T -> T -> bool;
  div_by_zero : forall x d, num_eqb d zero = true -> num_div x d = None
}.

Declare Scope num_scope.
Delimit Scope num_scope with num.
Infix "+" := num_add : num_scope.
Infix "-" := num_sub : num_scope.
Infix "*" := num_mul : num_scope.
Infix ">?" := num_gtb (at level 70, no associativity) : num_scope.
Infix "<?" := num_ltb (at level 70, no associativity) : num_scope.
Infix ">=?" := num_geb (at level 70, no associativity) : num_scope.
Infix "==?" := num_eqb (at level 70, no associativity) : num_scope.

(** [x / d] as a statement of the program. *)
Definition divide {T : Type} `{Number T} (x d : T) : outcome T :=
  match num_div x d with
  | Some q => Return q
  | None => Raise ZeroDivisionError
  end.

Infix "/" := divide : num_scope.

(** [f'max_its of {max_its} has been exceeded'] *)
Definition exceeded_msg (max_its : Z) : string :=
  ("max_its of " ++ NilZero.string_of_int (Z.to_int max_its) ++ " has been exceeded")%string.

Definition not_same_sign_msg : string :=
  "f(x_0) and f(x_1) are not of the same sign".

(** ** newton_raphson *)

Section Solvers.

Context {T : Type} `{Number T}.

Local Open Scope py_scope.

(** The inner function [g]: [x - f(x) / df(x)], operands evaluated left to
    right. *)
Definition g (f df : T -> outcome T) (x : T) : outcome T :=
  fx <- f x ;;
  dfx <- df x ;;
  q <- (fx / dfx)%num ;;
  Return (x - q)%num.

(** The three variables of the loop. *)
Record nr_state : Type := mk_nr {
  r : Z;
  x_r : T;
  x_r_plus_1 : T
}.

(** [abs(x_r_plus_1 - x_r) > eps and r < max_its] *)
Definition nr_test (eps : T) (max_its : Z) (s : nr_state) : bool :=
  (num_abs (x_r_plus_1 s - x_r s) >? eps)%num && (r s <? max_its).

(** The [while] loop.  One unit of fuel pays for one run of the body. *)
Fixpoint nr_while (fuel : nat) (f df : T -> outcome T) (eps : T) (max_its : Z)
    (s : nr_state) : outcome nr_state :=
  if nr_test eps max_its s then
    match fuel with
    | O => OutOfFuel
    | S fuel' =>
        let r' := r s + 1 in
        let x_r' := x_r_plus_1 s in
        x_r_plus_1' <- g f df x_r' ;;
        nr_while fuel' f df eps max_its (mk_nr r' x_r' x_r_plus_1')
    end
  else Return s.

(** The body runs only while [r < max_its] and [r] starts at [-1], so
    [max_its + 1] runs are all the loop can make. *)
Definition nr_fuel (max_its : Z) : nat := Z.to_nat (max_its + 1).

(** Lines 39-46: the state in which the loop is left. *)
Definition newton_raphson_loop (f df : T -> outcome T) (x_0 eps : T) (max_its : Z)
    : outcome nr_state :=
  let r0 := -1 in
  let x_r0 := x_0 in
  x_r_plus_1_0 <- g f df x_r0 ;;
  nr_while (nr_fuel max_its) f df eps max_its (mk_nr r0 x_r0 x_r_plus_1_0).

Definition newton_raphson (f df : T -> outcome T) (x_0 eps : T) (max_its : Z)
    : outcome T :=
  s <- newton_raphson_loop f df x_0 eps max_its ;;
  if r s =? max_its then Raise (ConvergenceError (exceeded_msg max_its))
  else Return (x_r_plus_1 s).

(** ** bisection *)

Record bis_state : Type := mk_bis {
  a : T;
  b : T;
  c : T;
  its : Z
}.

(** The [while abs(f(c)) > eps] loop.  Nothing bounds the number of its
    runs, so it takes its fuel from the caller.  The [break] leaves the
    loop with the freshly computed [c] and the counter untouched. *)
Fixpoint bis_while (fuel : nat) (f : T -> outcome T) (eps : T) (s : bis_state)
    : outcome bis_state :=
  fc <- f (c s) ;;
  if (num_abs fc >? eps)%num then
    match fuel with
    | O => OutOfFuel
    | S fuel' =>
        fa <- f (a s) ;;
        fb <- f (b s) ;;
        if (fa * fb >=? zero)%num then Raise (ValueError not_same_sign_msg)
        else
          c1 <- ((a s + b s) / two)%num ;;
          fc1 <- f c1 ;;
          if (fc1 ==? zero)%num then Return (mk_bis (a s) (b s) c1 (its s))
          else
            fa' <- f (a s) ;;
            fc1' <- f c1 ;;
            let a' := if (fa' * fc1' <? zero)%num then a s else c1 in
            let b' := if (fa' * fc1' <? zero)%num then c1 else b s in
            c2 <- ((a' + b') / two)%num ;;
            bis_while fuel' f eps (mk_bis a' b' c2 (its s + 1))
    end
  else Return s.

(** Lines 77-91: the state in which the loop is left. *)
Definition bisection_loop (fuel : nat) (f : T -> outcome T) (a0 b0 eps : T)
    : outcome bis_state :=
  let its0 := 0 in
  c0 <- ((a0 + b0) / two)%num ;;
  bis_while fuel f eps (mk_bis a0 b0 c0 its0).

Definition bisection (fuel : nat) (f : T -> outcome T) (a0 b0 eps : T) (max_its : Z)
    : outcome T :=
  s <- bisection_loop fuel f a0 b0 eps ;;
  if its s >=? max_its then Raise (ConvergenceError (exceeded_msg max_its))
  else Return (c s).

End Solvers.

(** ** solve *)

(** Code that also prints: the lines written to standard output so far,
    and the outcome.  What was printed before an exception stays printed. *)
Definition printing (A : Type) : Type := (list string * outcome A)%type.

Definition print (line : string) : printing unit := (line :: nil, Return tt).

Definition quiet {A : Type} (o : outcome A) : printing A := (nil, o).

Definition pbind {A B : Type} (p : printing A) (k : A -> printing B) : printing B :=
  match p with
  | (out, Return x) => let (out', o) := k x in ((out ++ out')%list, o)
  | (out, Raise e) => (out, Raise e)
  | (out, OutOfFuel) => (out, OutOfFuel)
  end.

Declare Scope print_scope.
Delimit Scope print_scope with print.
Notation "x <- p ;; k" := (pbind p (fun x => k))
  (at level 61, p at next level, right associativity) : print_scope.
Notation "p ;; k" := (pbind p (fun _ => k))
  (at level 61, right associativity) : print_scope.

(** [try: body / except <class>: handler / else: orelse].  The handler
    runs on an exception of the class out of [body]; [orelse] runs when
    [body] raised nothing, and neither is itself guarded. *)
Definition try_except_else {A B : Type} (body : printing A)
    (except : exn -> bool) (handler : printing B) (orelse : A -> printing B)
    : printing B :=
  match body with
  | (out, Return x) => let (out', o) := orelse x in ((out ++ out')%list, o)
  | (out, Raise e) =>
      if except e then let (out', o) := handler in ((out ++ out')%list, o)
      else (out, Raise e)
  | (out, OutOfFuel) => (out, OutOfFuel)
  end.

Section Solve.

Context {T : Type} `{Number T}.

Local Open Scope print_scope.

(** A function that ends without a [return] gives [None]. *)
Definition solve (fuel : nat) (f df : T -> outcome T) (x_0 x_1 eps : T)
    (max_its_n max_its_b : Z) : printing (option T) :=
  try_except_else
    (print "Trying Newton's Method" ;;
     quiet (newton_raphson f df x_0 eps max_its_n))
    is_ConvergenceError
    (print "Newton did not work" ;;
     try_except_else
       (print "Trying Bisection method" ;;
        quiet (bisection fuel f x_0 x_1 eps max_its_b))
       is_ValueError
       (print "Bisection did not work" ;;
        quiet (Return None))
       (fun root_b =>
          print "Bisection worked" ;;
          quiet (Return (Some root_b))))
    (fun root_n =>
       print "Newton worked" ;;
       quiet (Return (Some root_n))).

End Solve.

(** ** The two number types *)

(** Python's [float]: IEEE binary64.  Division raises on a divisor that
    compares equal to zero (either signed zero); the comparisons are the
    IEEE ones, false on a NaN. *)
Definition float_div (x d : float) : option float :=
  if PrimFloat.eqb d 0%float then None else Some (PrimFloat.div x d).

Lemma float_div_by_zero (x d : float) :
  PrimFloat.eqb d 0%float = true -> float_div x d = None.
Proof. intros Hd. unfold float_div. rewrite Hd. reflexivity. Qed.

#[export] Instance float_Number : Number float := {|
  zero := 0%float;
  two := 2%float;
  num_add := PrimFloat.add;
  num_sub := PrimFloat.sub;
  num_mul := PrimFloat.mul;
  num_div := float_div;
  num_abs := PrimFloat.abs;
  num_gtb := fun x y => PrimFloat.ltb y x;
  num_ltb := PrimFloat.ltb;
  num_geb := fun x y => PrimFloat.leb y x;
  num_eqb := PrimFloat.eqb;
  div_by_zero := float_div_by_zero
|}.

(** Python's [fractions.Fraction]: exact rationals in lowest terms. *)
Definition Qc_eqb (x y : Qc) : bool := if Qc_eq_dec x y then true else false.

Definition Qc_div (x d : Qc) : option Qc :=
  if Qc_eqb d (Q2Qc 0) then None else Some (Qcdiv x d).

Lemma Qc_div_by_zero (x d : Qc) :
  Qc_eqb d (Q2Qc 0) = true -> Qc_div x d = None.
Proof. intros Hd. unfold Qc_div. rewrite Hd. reflexivity. Qed.

#[export] Instance Qc_Number : Number Qc := {|
  zero := Q2Qc 0;
  two := Q2Qc 2;
  num_add := Qcplus;
  num_sub := Qcminus;
  num_mul := Qcmult;
  num_div := Qc_div;
  num_abs := Qcabs;
  num_gtb := fun x y => match Qccompare x y with Gt => true | _ => false end;
  num_ltb := fun x y => match Qccompare x y with Lt => true | _ => false end;
  num_geb := fun x y => match Qccompare x y with Lt => false | _ => true end;
  num_eqb := Qc_eqb;
  div_by_zero := Qc_div_by_zero
|}.

(** ** The algorithm of newton_raphson, as the specification words it *)

(** The relations of this section are written from the specification's
    sentences alone; they use neither [g] nor [exceeded_msg]. *)

(** "a ConvergenceError carrying the attempted iteration cap": the cap
    can be read back from the message, as the decimal numeral between its
    fixed words. *)
Definition carries_cap (msg : string) (cap : Z) : Prop :=
  exists (numeral : string) (d : Decimal.int),
    msg = ("max_its of " ++ numeral ++ " has been exceeded")%string /\
    NilZero.int_of_string numeral = Some d /\
    Z.of_int d = cap.

Section NewtonSpec.

Context {T : Type} `{Number T}.

(** "define g(x) = x - f(x)/df(x)"; "df(x) == 0 at any evaluated point
    causes a division-by-zero failure (propagated, not caught)".  A
    failure of [f] or of [df] is the failure of the update. *)
Inductive newton_update_spec (f df : T -> outcome T) (x : T) : outcome T -> Prop :=
| update_value : forall fx dfx q,
    f x = Return fx -> df x = Return dfx -> num_div fx dfx = Some q ->
    newton_update_spec f df x (Return (x - q)%num)
| update_division_by_zero : forall fx dfx,
    f x = Return fx -> df x = Return dfx -> num_div fx dfx = None ->
    newton_update_spec f df x (Raise ZeroDivisionError)
| update_f_raises : forall e,
    f x = Raise e -> newton_update_spec f df x (Raise e)
| update_f_diverges :
    f x = OutOfFuel -> newton_update_spec f df x OutOfFuel
| update_df_raises : forall fx e,
    f x = Return fx -> df x = Raise e -> newton_update_spec f df x (Raise e)
| update_df_diverges : forall fx,
    f x = Return fx -> df x = OutOfFuel -> newton_update_spec f df x OutOfFuel.

(** "Loop while |x_{r+1} - x_r| > eps AND r < max_its: increment r, shift
    x_r <- x_{r+1}, recompute x_{r+1} = g(x_r).  If the loop exited because
    r == max_its exactly, fail with a ConvergenceError carrying the
    attempted iteration cap.  Otherwise return x_{r+1}."  [msg] is the
    message of that error.  A failure of the update ends the run with that
    failure. *)
Inductive newton_loop_spec (f df : T -> outcome T) (eps : T) (max_its : Z)
    (msg : string) : Z -> T -> T -> outcome T -> Prop :=
| spec_exit_cap : forall r xr xr1,
    ~ ((num_abs (xr1 - xr) >? eps)%num = true /\ r < max_its) ->
    r = max_its ->
    newton_loop_spec f df eps max_its msg r xr xr1 (Raise (ConvergenceError msg))
| spec_exit_value : forall r xr xr1,
    ~ ((num_abs (xr1 - xr) >? eps)%num = true /\ r < max_its) ->
    r <> max_its ->
    newton_loop_spec f df eps max_its msg r xr xr1 (Return xr1)
| spec_iterate : forall r xr xr1 xr2 o,
    (num_abs (xr1 - xr) >? eps)%num = true -> r < max_its ->
    newton_update_spec f df xr1 (Return xr2) ->
    newton_loop_spec f df eps max_its msg (r + 1) xr1 xr2 o ->
    newton_loop_spec f df eps max_its msg r xr xr1 o
| spec_g_raises : forall r xr xr1 e,
    (num_abs (xr1 - xr) >? eps)%num = true -> r < max_its ->
    newton_update_spec f df xr1 (Raise e) ->
    newton_loop_spec f df eps max_its msg r xr xr1 (Raise e)
| spec_g_diverges : forall r xr xr1,
    (num_abs (xr1 - xr) >? eps)%num = true -> r < max_its ->
    newton_update_spec f df xr1 OutOfFuel ->
    newton_loop_spec f df eps max_its msg r xr xr1 OutOfFuel.

(** "Initialize iteration index r = -1, x_r = x0, compute x_{r+1} = g(x_r)
    once unconditionally." *)
Inductive newton_raphson_spec (f df : T -> outcome T) (x_0 eps : T) (max_its : Z)
    (msg : string) : outcome T -> Prop :=
| spec_start : forall x1 o,
    newton_update_spec f df x_0 (Return x1) ->
    newton_loop_spec f df eps max_its msg (-1) x_0 x1 o ->
    newton_raphson_spec f df x_0 eps max_its msg o
| spec_start_raises : forall e,
    newton_update_spec f df x_0 (Raise e) ->
    newton_raphson_spec f df x_0 eps max_its msg (Raise e)
| spec_start_diverges :
    newton_update_spec f df x_0 OutOfFuel ->
    newton_raphson_spec f df x_0 eps max_its msg OutOfFuel.

End NewtonSpec.

(** ** Auxiliary definitions *)

(** Lines 47-49 of newton_raphson, on the state the loop was left in. *)
Definition nr_finish {T : Type} (max_its : Z) (s : @nr_state T) : outcome T :=
  if r s =? max_its then Raise (ConvergenceError (exceeded_msg max_its))
  else Return (x_r_plus_1 s).

(** Lines 93-95 of bisection, on the state the loop was left in. *)
Definition bis_finish {T : Type} (max_its : Z) (s : @bis_state T) : outcome T :=
  if its s >=? max_its then Raise (ConvergenceError (exceeded_msg max_its))
  else Return (c s).

(** [k] applications of [g] from [x]: the iterate [x_k]. *)
Fixpoint g_iter {T : Type} `{Number T} (f df : T -> outcome T) (k : nat) (x : T)
    : outcome T :=
  match k with
  | O => Return x
  | S k' => bind (g_iter f df k' x) (g f df)
  end.

(** How often the body of newton_raphson's loop ran: [r] starts at -1 and
    each run adds one. *)
Definition loop_runs {T : Type} (s : @nr_state T) : Z := r s + 1.

(** How often [g] was evaluated: once before the loop, once per run. *)
Definition updates {T : Type} (s : @nr_state T) : Z := loop_runs s + 1.

(** *** Exact arithmetic *)

(** What a run on a linear function needs of the arithmetic: on the
    numbers that stand for reals ([regular]), subtraction of a number from
    itself and from zero is exact, and so is division by one. *)
Class ExactArith (T : Type) `{Number T} : Type := {
  one : T;
  regular : T -> Prop;
  sub_diag : forall x : T, regular x -> (x - x)%num = zero;
  sub_zero_r : forall x : T, (x - zero)%num = x;
  sub_zero_sub : forall x : T, regular x -> (zero - (zero - x))%num = x;
  div_one : forall x : T, num_div x one = Some x;
  abs_zero : num_abs zero = zero
}.

(** The regular floats are the finite ones, the negative zero left out
    ([0 - (0 - (-0.0))] is [+0.0]). *)
Definition float_regular (x : float) : bool :=
  match Prim2SF x with
  | S754_finite _ _ _ => true
  | S754_zero s => negb s
  | S754_infinity _ => false
  | S754_nan => false
  end.

(** The float 1.0, in the IEEE specification's terms. *)
Definition SF_one : spec_float := S754_finite false 4503599627370496 (-52).

(** *** Less-or-equal *)

(** The source only ever tests [>]; a bound stated with [<=] is related
    to its tests by this law, which holds of floats (a NaN is in neither
    relation to anything) and of rationals. *)
Class LeOrder (T : Type) `{Number T} : Type := {
  num_leb : T -> T -> bool;
  leb_not_gtb : forall x y : T, num_leb x y = true -> (x >? y)%num = false
}.

Infix "<=?" := num_leb (at level 70, no associativity) : num_scope.

Definition Qc_leb (x y : Qc) : bool :=
  match Qccompare x y with Gt => false | _ => true end.

(** *** Functions to solve for *)

Section Functions.

Context {T : Type} `{Number T}.

(** [lambda x: x - rt] *)
Definition linear (rt : T) : T -> outcome T := fun x => Return (x - rt)%num.

(** [lambda x: d] *)
Definition constant (d : T) : T -> outcome T := fun _ => Return d.

(** [lambda x: x] *)
Definition identity : T -> outcome T := fun x => Return x.

(** [lambda x: x * x] *)
Definition square : T -> outcome T := fun x => Return (x * x)%num.

(** [lambda x: x * x - 2] *)
Definition square_minus_two : T -> outcome T := fun x => Return (x * x - two)%num.

(** [lambda x: x * x + k] *)
Definition square_plus (k : T) : T -> outcome T := fun x => Return (x * x + k)%num.

(** [lambda x: 2 * x] *)
Definition twice : T -> outcome T := fun x => Return (two * x)%num.

(** [lambda x: k * x * x] and its derivative [lambda x: 2 * k * x] *)
Definition scaled_square (k : T) : T -> outcome T := fun x => Return (k * x * x)%num.

Definition scaled_twice (k : T) : T -> outcome T := fun x => Return (two * k * x)%num.

(** [lambda x: lo if x < t else hi], a step at [t] *)
Definition step_at (t lo hi : T) : T -> outcome T :=
  fun x => Return (if (x <? t)%num then lo else hi).

End Functions.

(** *** Floats *)

(** The default [eps=1.0e-5]: the binary64 number nearest to it. *)
Definition default_eps : float := 0x1.4f8b588e368f1p-17%float.

(** The default [max_its=20]. *)
Definition default_max_its : Z := 20.

(** The rational a floating-point number stands for, if it is finite. *)
Definition float_to_Q (x : float) : option Q :=
  match Prim2SF x with
  | S754_zero _ => Some 0%Q
  | S754_finite s m e =>
      Some ((if s then (-1) else 1) * (Zpos m # 1) * Qpower (2 # 1) e)%Q
  | S754_infinity _ => None
  | S754_nan => None
  end.

(** The floats that are numbers: all but the infinities and NaN. *)
Definition float_is_finite (x : float) : bool :=
  match Prim2SF x with
  | S754_finite _ _ _ => true
  | S754_zero _ => true
  | S754_infinity _ => false
  | S754_nan => false
  end.

(** A function that raises nothing: [lambda x: F(x)]. *)
Definition pure_fn {T : Type} (F : T -> T) : T -> outcome T :=
  fun x => Return (F x).

(** * Theorems *)

(** ** The arithmetic of the two number types *)

(** Rationals: every one is regular. *)
Lemma Qc_sub_diag (x : Qc) : True -> Qcminus x x = Q2Qc 0.
Proof. intros _. ring. Qed.

Lemma Qc_sub_zero_r (x : Qc) : Qcminus x (Q2Qc 0) = x.
Proof. ring. Qed.

Lemma Qc_sub_zero_sub (x : Qc) : True -> Qcminus (Q2Qc 0) (Qcminus (Q2Qc 0) x) = x.
Proof. intros _. ring. Qed.

Lemma Qc_div_one (x : Qc) : Qc_div x (Q2Qc 1) = Some x.
Proof.
  unfold Qc_div, Qc_eqb.
  destruct (Qc_eq_dec (Q2Qc 1) (Q2Qc 0)) as [E|_]; [discriminate E|].
  f_equal. unfold Qcdiv.
  assert (Hinv : Qcinv (Q2Qc 1) = Q2Qc 1) by (apply Qc_is_canon; reflexivity).
  rewrite Hinv. ring.
Qed.

Lemma Qc_abs_zero : Qcabs (Q2Qc 0) = Q2Qc 0.
Proof. apply Qc_is_canon. reflexivity. Qed.

#[export] Instance Qc_ExactArith : ExactArith Qc := {|
  one := Q2Qc 1;
  regular := fun _ => True;
  sub_diag := Qc_sub_diag;
  sub_zero_r := Qc_sub_zero_r;
  sub_zero_sub := Qc_sub_zero_sub;
  div_one := Qc_div_one;
  abs_zero := Qc_abs_zero
|}.

(** Floats.  The facts are read off the IEEE specification of the
    operations. *)
Lemma div_eucl_mul (q d : Z) : 0 < d -> Z.div_eucl (q * d) d = (q, 0).
Proof.
  intros Hd. pose proof (Z.div_mul q d) as Hq. pose proof (Z.mod_mul q d) as Hr.
  unfold Z.div, Z.modulo in Hq, Hr.
  destruct (Z.div_eucl (q * d) d) as [q' r']. cbn [fst snd] in *.
  rewrite Hq, Hr by lia. reflexivity.
Qed.

(** Division by one, on the specification: the quotient of the mantissas
    is exact, and rounding shifts it back by at most one bit. *)
Lemma SFdiv_one (x : spec_float) :
  valid_binary x = true -> SF64div x SF_one = x.
Proof.
  destruct x as [s | s | | s m e]; intros Hv;
    try (destruct s; reflexivity); try reflexivity.
  unfold valid_binary in Hv. cbn [SpecFloat.valid_binary] in Hv.
  unfold bounded, canonical_mantissa in Hv.
  apply andb_true_iff in Hv as [Hc Hb].
  apply Z.eqb_eq in Hc. apply Z.leb_le in Hb.
  unfold SF64div, SF_one, SFdiv, SFdiv_core_binary.
  set (d := Zpos (digits2_pos m)) in *.
  assert (Hd : 0 < d) by (unfold d; lia).
  unfold fexp, emin, prec, emax in *.
  cbn [Zdigits2].
  change (Zpos (digits2_pos 4503599627370496)) with 53.
  fold d.
  change IntDef.Z.max with Z.max in *. change IntDef.Z.min with Z.min.
  change IntDef.Z.div_eucl with Z.div_eucl. change IntDef.Z.shiftl with Z.shiftl.
  set (e' := Z.min _ _).
  assert (He' : (e = -1074 /\ e' = e) \/ (-1074 < e /\ e' = e - 1 /\ d = 53)) by lia.
  rewrite xorb_false_r.
  destruct He' as [[He He'] | (He & He' & Hd53)].
  - (* subnormal range: the quotient is the mantissa *)
    replace (e - -52 - e') with 52 by lia.
    rewrite Z.shiftl_mul_pow2 by lia.
    rewrite div_eucl_mul by lia.
    change (new_location 4503599627370496 0) with loc_Exact.
    rewrite He'. unfold binary_round_aux, shr_fexp, fexp, emin.
    cbn [Zdigits2]. fold d.
    change IntDef.Z.max with Z.max in *.
    replace (Z.max (d + e - 53) (3 - 1024 - 53) - e) with 0 by lia.
    cbn [shr shr_record_of_loc shr_m loc_of_shr_record round_nearest_even Zdigits2].
    fold d.
    replace (Z.max (d + e - 53) (3 - 1024 - 53) - e) with 0 by lia.
    cbn [shr shr_m].
    destruct (Z.leb_spec e (1024 - 53)); [reflexivity | lia].
  - (* normal range: the quotient is twice the mantissa, one exponent down *)
    replace (e - -52 - e') with 53 by lia.
    rewrite Z.shiftl_mul_pow2 by lia.
    replace (Z.pos m * 2 ^ 53) with (Z.pos m~0 * 4503599627370496) by lia.
    rewrite div_eucl_mul by lia.
    change (new_location 4503599627370496 0) with loc_Exact.
    rewrite He'. unfold binary_round_aux, shr_fexp, fexp, emin.
    cbn [Zdigits2 digits2_pos]. rewrite Pos2Z.inj_succ. fold d.
    change IntDef.Z.max with Z.max in *.
    replace (Z.max (Z.succ d + (e - 1) - 53) (3 - 1024 - 53) - (e - 1)) with 1 by lia.
    cbn [shr shr_record_of_loc shr_m loc_of_shr_record round_nearest_even
         Zdigits2 SpecFloat.iter_pos shr_1 orb].
    fold d.
    replace (e - 1 + 1) with e by lia.
    replace (Z.max (d + e - 53) (3 - 1024 - 53) - e) with 0 by lia.
    cbn [shr shr_m].
    destruct (Z.leb_spec e (1024 - 53)); [reflexivity | lia].
Qed.

Lemma float_div_one (x : float) : float_div x 1%float = Some x.
Proof.
  unfold float_div. change (PrimFloat.eqb 1 0) with false. cbv iota. f_equal.
  apply Prim2SF_inj. rewrite div_spec. change (Prim2SF 1%float) with SF_one.
  apply SFdiv_one, Prim2SF_valid.
Qed.

Lemma float_sub_zero_r (x : float) : PrimFloat.sub x 0%float = x.
Proof.
  apply Prim2SF_inj. rewrite sub_spec. change (Prim2SF 0%float) with (S754_zero false).
  destruct (Prim2SF x) as [[|] | [|] | | s m e]; reflexivity.
Qed.

Lemma float_sub_diag (x : float) :
  float_regular x = true -> PrimFloat.sub x x = 0%float.
Proof.
  unfold float_regular. intros Hx.
  apply Prim2SF_inj. rewrite sub_spec. change (Prim2SF 0%float) with (S754_zero false).
  destruct (Prim2SF x) as [[|] | [|] | | s m e]; try discriminate Hx; try reflexivity.
  unfold SF64sub, SFsub, shl_align.
  change IntDef.Z.min with Z.min. change IntDef.Z.sub with Z.sub.
  rewrite Z.min_id, !Z.sub_diag. reflexivity.
Qed.

Lemma float_sub_zero_sub (x : float) :
  float_regular x = true -> PrimFloat.sub 0%float (PrimFloat.sub 0%float x) = x.
Proof.
  unfold float_regular. intros Hx.
  apply Prim2SF_inj. rewrite !sub_spec. change (Prim2SF 0%float) with (S754_zero false).
  destruct (Prim2SF x) as [[|] | [|] | | s m e]; try discriminate Hx; try reflexivity.
  cbn. now rewrite negb_involutive.
Qed.

#[export] Instance float_ExactArith : ExactArith float := {|
  one := 1%float;
  regular := fun x => float_regular x = true;
  sub_diag := float_sub_diag;
  sub_zero_r := float_sub_zero_r;
  sub_zero_sub := float_sub_zero_sub;
  div_one := float_div_one;
  abs_zero := eq_refl
|}.

Lemma SFcompare_antisym (x y : spec_float) :
  SFcompare y x = option_map CompOpp (SFcompare x y).
Proof.
  destruct x as [[|] | [|] | | [|] mx ex], y as [[|] | [|] | | [|] my ey];
    try reflexivity; cbn [SFcompare option_map]; f_equal;
    change IntDef.Z.compare with Z.compare;
    change PosDef.Pos.compare_cont with Pos.compare_cont;
    rewrite (Z.compare_antisym ex ey);
    destruct (ex ?= ey); cbn [CompOpp]; try reflexivity.
  - rewrite (Pos.compare_cont_antisym mx my Eq). reflexivity.
  - rewrite (Pos.compare_cont_antisym mx my Eq). reflexivity.
Qed.

Lemma float_leb_not_gtb (x y : float) :
  PrimFloat.leb x y = true -> PrimFloat.ltb y x = false.
Proof.
  rewrite leb_spec, ltb_spec. unfold SFleb, SFltb.
  rewrite (SFcompare_antisym (Prim2SF x) (Prim2SF y)).
  destruct (SFcompare (Prim2SF x) (Prim2SF y)) as [[| |]|]; cbn; congruence.
Qed.

#[export] Instance float_LeOrder : LeOrder float := {|
  num_leb := PrimFloat.leb;
  leb_not_gtb := float_leb_not_gtb
|}.

Lemma Qc_leb_not_gtb (x y : Qc) :
  Qc_leb x y = true ->
  match Qccompare x y with Gt => true | _ => false end = false.
Proof. unfold Qc_leb. destruct (Qccompare x y); congruence. Qed.

#[export] Instance Qc_LeOrder : LeOrder Qc := {|
  num_leb := Qc_leb;
  leb_not_gtb := Qc_leb_not_gtb
|}.


(** ** Newton-Raphson *)

Section NewtonFacts.

Context {T : Type} `{Number T}.
Variables (f df : T -> outcome T) (eps : T) (max_its : Z).

Local Open Scope py_scope.

Lemma nr_test_true (s : nr_state) :
  nr_test eps max_its s = true <->
  (num_abs (x_r_plus_1 s - x_r s) >? eps)%num = true /\ r s < max_its.
Proof.
  unfold nr_test. rewrite andb_true_iff, Z.ltb_lt. reflexivity.
Qed.

Lemma nr_while_exit (fuel : nat) (s : nr_state) :
  nr_test eps max_its s = false ->
  nr_while fuel f df eps max_its s = Return s.
Proof. intros Ht. destruct fuel; simpl; rewrite Ht; reflexivity. Qed.

Lemma nr_while_step (fuel : nat) (s : nr_state) :
  nr_test eps max_its s = true ->
  nr_while (S fuel) f df eps max_its s =
  (x' <- g f df (x_r_plus_1 s) ;;
   nr_while fuel f df eps max_its (mk_nr (r s + 1) (x_r_plus_1 s) x')).
Proof. intros Ht. simpl. rewrite Ht. reflexivity. Qed.

(** The update of the code is the update of the specification. *)
Lemma g_update_spec (x : T) (o : outcome T) :
  newton_update_spec f df x o <-> g f df x = o.
Proof.
  unfold g, divide. split.
  - intros [fx dfx q Hf Hdf Hq | fx dfx Hf Hdf Hq | e Hf | Hf | fx e Hf Hdf | fx Hf Hdf];
      rewrite Hf; cbn [bind]; try reflexivity;
      rewrite Hdf; cbn [bind]; try reflexivity;
      rewrite Hq; reflexivity.
  - intros <-.
    destruct (f x) as [fx| e |] eqn:Hf; cbn [bind];
      [| now apply update_f_raises | now apply update_f_diverges].
    destruct (df x) as [dfx| e |] eqn:Hdf; cbn [bind];
      [| now apply update_df_raises with (fx := fx)
       | now apply update_df_diverges with (fx := fx)].
    destruct (num_div fx dfx) as [q|] eqn:Hq; cbn [bind].
    + now apply update_value with (fx := fx) (dfx := dfx).
    + now apply update_division_by_zero with (fx := fx) (dfx := dfx).
Qed.

(** The code meets the specification's wording, from any state the loop
    can be in, whenever the fuel covers the distance to the cap. *)
Lemma nr_while_meets_spec (fuel : nat) :
  forall s, (Z.to_nat (max_its - r s) <= fuel)%nat ->
  newton_loop_spec f df eps max_its (exceeded_msg max_its)
    (r s) (x_r s) (x_r_plus_1 s)
    (s' <- nr_while fuel f df eps max_its s ;; nr_finish max_its s').
Proof.
  induction fuel as [|fuel IH]; intros s Hfuel.
  - assert (Ht : nr_test eps max_its s = false).
    { destruct (nr_test eps max_its s) eqn:Ht; [|reflexivity].
      apply nr_test_true in Ht. lia. }
    rewrite nr_while_exit by exact Ht. cbn [bind]. unfold nr_finish.
    assert (Hn : ~ ((num_abs (x_r_plus_1 s - x_r s) >? eps)%num = true /\ r s < max_its)).
    { rewrite <- nr_test_true, Ht. discriminate. }
    destruct (Z.eqb_spec (r s) max_its) as [He|He].
    + now apply spec_exit_cap.
    + now apply spec_exit_value.
  - destruct (nr_test eps max_its s) eqn:Ht.
    + rewrite nr_while_step by exact Ht.
      pose proof (proj1 (nr_test_true s) Ht) as [Hgt Hlt].
      destruct (g f df (x_r_plus_1 s)) as [x'| e |] eqn:Hg; cbn [bind];
        apply g_update_spec in Hg.
      * eapply spec_iterate; eauto.
        apply (IH (mk_nr (r s + 1) (x_r_plus_1 s) x')). cbn [r]. lia.
      * now apply spec_g_raises.
      * now apply spec_g_diverges.
    + rewrite nr_while_exit by exact Ht. cbn [bind]. unfold nr_finish.
      assert (Hn : ~ ((num_abs (x_r_plus_1 s - x_r s) >? eps)%num = true /\ r s < max_its)).
      { rewrite <- nr_test_true, Ht. discriminate. }
      destruct (Z.eqb_spec (r s) max_its) as [He|He].
      * now apply spec_exit_cap.
      * now apply spec_exit_value.
Qed.

(** The specification's wording determines the outcome, and it is the
    code's. *)
Lemma newton_loop_spec_run (rr : Z) (xr xr1 : T) (o : outcome T) :
  newton_loop_spec f df eps max_its (exceeded_msg max_its) rr xr xr1 o ->
  forall fuel, (Z.to_nat (max_its - rr) <= fuel)%nat ->
  (s' <- nr_while fuel f df eps max_its (mk_nr rr xr xr1) ;; nr_finish max_its s') = o.
Proof.
  induction 1 as [rr xr xr1 Hn He | rr xr xr1 Hn He
                 | rr xr xr1 xr2 o Hgt Hlt Hg _ IH
                 | rr xr xr1 e Hgt Hlt Hg | rr xr xr1 Hgt Hlt Hg];
    intros fuel Hfuel; try apply g_update_spec in Hg.
  - rewrite nr_while_exit.
    + cbn [bind]. unfold nr_finish. cbn [r]. subst rr. now rewrite Z.eqb_refl.
    + destruct (nr_test eps max_its (mk_nr rr xr xr1)) eqn:Ht; [|reflexivity].
      apply nr_test_true in Ht. contradiction.
  - rewrite nr_while_exit.
    + cbn [bind]. unfold nr_finish. cbn [r x_r_plus_1].
      destruct (Z.eqb_spec rr max_its); [contradiction | reflexivity].
    + destruct (nr_test eps max_its (mk_nr rr xr xr1)) eqn:Ht; [|reflexivity].
      apply nr_test_true in Ht. contradiction.
  - destruct fuel as [|fuel]; [lia|].
    rewrite nr_while_step by (apply nr_test_true; cbn; auto).
    cbn [x_r_plus_1 r]. rewrite Hg. cbn [bind]. apply IH. lia.
  - destruct fuel as [|fuel]; [lia|].
    rewrite nr_while_step by (apply nr_test_true; cbn; auto).
    cbn [x_r_plus_1 r]. rewrite Hg. reflexivity.
  - destruct fuel as [|fuel]; [lia|].
    rewrite nr_while_step by (apply nr_test_true; cbn; auto).
    cbn [x_r_plus_1 r]. rewrite Hg. reflexivity.
Qed.

Lemma newton_raphson_unfold (x_0 : T) :
  newton_raphson f df x_0 eps max_its =
  (x1 <- g f df x_0 ;;
   s' <- nr_while (nr_fuel max_its) f df eps max_its (mk_nr (-1) x_0 x1) ;;
   nr_finish max_its s').
Proof.
  unfold newton_raphson, newton_raphson_loop.
  destruct (g f df x_0); reflexivity.
Qed.

End NewtonFacts.

(** The message of the code's ConvergenceError carries the cap. *)
Lemma exceeded_msg_carries_cap (max_its : Z) :
  carries_cap (exceeded_msg max_its) max_its.
Proof.
  exists (NilZero.string_of_int (Z.to_int max_its)), (Z.to_int max_its).
  split; [reflexivity|]. split; [|apply DecimalZ.of_to].
  apply NilZero.isi; destruct max_its as [|p|p]; cbn; try discriminate;
    intros E; injection E as E;
    apply (f_equal Pos.of_uint) in E;
    rewrite DecimalPos.Unsigned.of_to in E; discriminate E.
Qed.

(** C2: newton_raphson computes exactly what the specification's wording
    of the algorithm describes: the update [x - f(x)/df(x)], index [r]
    from -1 with one unconditional update, the loop while the step exceeds
    [eps] and [r < max_its], then a ConvergenceError whose message carries
    the cap exactly when [r = max_its], and [x_{r+1}] otherwise.  The
    wording determines the outcome, so the function is total: it never
    runs out of fuel on its own. *)
Theorem newton_raphson_refines_spec {T : Type} `{Number T}
    (f df : T -> outcome T) (x_0 eps : T) (max_its : Z) :
  exists msg : string,
    carries_cap msg max_its /\
    forall o : outcome T,
      newton_raphson f df x_0 eps max_its = o <->
      newton_raphson_spec f df x_0 eps max_its msg o.
Proof.
  exists (exceeded_msg max_its). split; [apply exceeded_msg_carries_cap|].
  intros o. rewrite newton_raphson_unfold. split.
  - intros <-. destruct (g f df x_0) as [x1| e |] eqn:Hg; cbn [bind];
      apply g_update_spec in Hg.
    + eapply spec_start; [exact Hg|].
      apply (nr_while_meets_spec f df eps max_its (nr_fuel max_its) (mk_nr (-1) x_0 x1)).
      unfold nr_fuel. cbn [r]. lia.
    + now apply spec_start_raises.
    + now apply spec_start_diverges.
  - intros [x1 o' Hg Hl | e Hg | Hg]; apply g_update_spec in Hg;
      rewrite Hg; cbn [bind]; try reflexivity.
    apply newton_loop_spec_run; [exact Hl|]. unfold nr_fuel. lia.
Qed.

Section NewtonInvariant.

Context {T : Type} `{Number T}.
Variables (f df : T -> outcome T) (eps : T) (max_its : Z).

Local Open Scope py_scope.

(** The rule of the [while] loop: what holds before the loop and is kept
    by its body holds when the loop is left, where its test is false. *)
Lemma nr_while_rule (P : nr_state -> Prop) :
  (forall s x', nr_test eps max_its s = true -> P s ->
     g f df (x_r_plus_1 s) = Return x' ->
     P (mk_nr (r s + 1) (x_r_plus_1 s) x')) ->
  forall fuel s s', P s ->
    nr_while fuel f df eps max_its s = Return s' ->
    P s' /\ nr_test eps max_its s' = false.
Proof.
  intros Hbody. induction fuel as [|fuel IH]; intros s s' HP Hrun.
  - simpl in Hrun. destruct (nr_test eps max_its s) eqn:Ht; [discriminate|].
    injection Hrun as <-. auto.
  - destruct (nr_test eps max_its s) eqn:Ht.
    + rewrite nr_while_step in Hrun by exact Ht.
      destruct (g f df (x_r_plus_1 s)) as [x'| |] eqn:Hg; cbn [bind] in Hrun;
        try discriminate.
      eapply IH; [|exact Hrun]. now apply Hbody.
    + rewrite nr_while_exit in Hrun by exact Ht. injection Hrun as <-. auto.
Qed.

End NewtonInvariant.

(** C5 (amended): with [max_its = 0] and a first step larger than [eps],
    the loop body runs once, which evaluates [g] a second time, at
    [g(x_0)]; if that evaluation returns, newton_raphson raises
    ConvergenceError with the cap 0, and if it fails (a zero derivative
    there), its failure is what newton_raphson raises. *)
Theorem newton_raphson_cap_zero {T : Type} `{Number T}
    (f df : T -> outcome T) (x_0 eps x_1 : T) :
  g f df x_0 = Return x_1 ->
  (num_abs (x_1 - x_0) >? eps)%num = true ->
  newton_raphson f df x_0 eps 0 =
  bind (g f df x_1) (fun _ => Raise (ConvergenceError (exceeded_msg 0))).
Proof.
  intros Hg Hstep. rewrite newton_raphson_unfold, Hg. cbn [bind].
  change (nr_fuel 0) with 1%nat.
  rewrite nr_while_step by (apply nr_test_true; cbn [r x_r x_r_plus_1]; split; [exact Hstep | lia]).
  cbn [r x_r x_r_plus_1].
  destruct (g f df x_1) as [x_2| |]; cbn [bind]; try reflexivity.
  rewrite nr_while_exit.
  - reflexivity.
  - unfold nr_test. cbn [r]. now rewrite andb_false_r.
Qed.

(** C10 (amended): for [max_its >= -1], a value newton_raphson returns is
    [g] of an iterate [x_r] of [g] from [x_0], reached within the cap, and
    the loop's test on the step from [x_r] to it is false: the step does
    not exceed [eps].  The residual is not bounded that way: on floats,
    for [f(x) = 1e12 * x * x] with its derivative, from [x_0 = 1e-5] and
    with the defaults, the value returned has [|f(x)|] about 25. *)
Theorem newton_raphson_returns_small_step {T : Type} `{Number T}
    (f df : T -> outcome T) (x_0 eps : T) (max_its : Z) (v : T) :
  -1 <= max_its ->
  newton_raphson f df x_0 eps max_its = Return v ->
  (exists (k : nat) (xr : T),
     g_iter f df k x_0 = Return xr /\ g f df xr = Return v /\
     (num_abs (v - xr) >? eps)%num = false /\ Z.of_nat k <= max_its) /\
  (exists w fw : float,
     newton_raphson (scaled_square 1e12%float) (scaled_twice 1e12%float)
       default_eps default_eps default_max_its = Return w /\
     scaled_square 1e12%float w = Return fw /\
     (num_abs fw <? default_eps)%num = false).
Proof.
  intros Hcap Hrun. split;
    [|do 2 eexists; repeat split; vm_compute; reflexivity].
  rewrite newton_raphson_unfold in Hrun.
  destruct (g f df x_0) as [x1| |] eqn:Hg0; cbn [bind] in Hrun; try discriminate.
  destruct (nr_while (nr_fuel max_its) f df eps max_its (mk_nr (-1) x_0 x1))
    as [s'| |] eqn:Hloop; cbn [bind] in Hrun; try discriminate.
  pose (P := fun s : nr_state =>
    g f df (x_r s) = Return (x_r_plus_1 s) /\ r s <= max_its /\
    exists k : nat, Z.of_nat k = r s + 1 /\ g_iter f df k x_0 = Return (x_r s)).
  destruct (nr_while_rule f df eps max_its P) with (3 := Hloop) as [HP Ht].
  - intros s x' Hts (Hgs & Hle & k & Hk & Hit) Hg. unfold P. cbn [r x_r x_r_plus_1].
    apply nr_test_true in Hts. split; [exact Hg|]. split; [lia|].
    exists (S k). split; [lia|]. cbn [g_iter]. rewrite Hit. exact Hgs.
  - unfold P. cbn [r x_r x_r_plus_1]. split; [exact Hg0|]. split; [lia|].
    exists O. split; reflexivity.
  - destruct HP as (Hgs & Hle & k & Hk & Hit). unfold nr_finish in Hrun.
    destruct (Z.eqb_spec (r s') max_its) as [He|Hne]; [discriminate|].
    injection Hrun as <-. exists k, (x_r s').
    split; [exact Hit|]. split; [exact Hgs|]. split; [|lia].
    unfold nr_test in Ht. apply andb_false_iff in Ht as [Ht|Ht]; [exact Ht|].
    apply Z.ltb_ge in Ht. lia.
Qed.

(** C7 (amended): on the linear function [x - rt] with derivative 1, from
    [x_0 = 0], for every real [rt] (on floats: every finite one but the
    negative zero), every tolerance [eps >= 0] and cap [max_its >= 1] (the
    defaults among them), newton_raphson returns [rt] itself, hence a
    value within [eps] of [rt].  The first, unconditional update already
    gives [rt]; the loop body then runs once when [|rt| > eps] (a second
    update, which changes nothing) and not at all when [|rt| <= eps]. *)
Theorem newton_raphson_linear {T : Type} `{ExactArith T} (rt eps : T) (max_its : Z) :
  regular rt ->
  (zero >? eps)%num = false ->
  1 <= max_its ->
  newton_raphson (linear rt) (constant one) zero eps max_its = Return rt /\
  (num_abs (rt - rt) >? eps)%num = false /\
  exists s, newton_raphson_loop (linear rt) (constant one) zero eps max_its = Return s /\
            x_r_plus_1 s = rt /\
            loop_runs s = (if (num_abs rt >? eps)%num then 1 else 0).
Proof.
  intros Hreal Heps Hcap.
  assert (Hg0 : g (linear rt) (constant one) zero = Return rt).
  { unfold g, linear, constant, divide. cbn [bind].
    rewrite div_one. cbn [bind]. now rewrite sub_zero_sub. }
  assert (Hg1 : g (linear rt) (constant one) rt = Return rt).
  { unfold g, linear, constant, divide. cbn [bind].
    rewrite div_one. cbn [bind]. now rewrite sub_diag, sub_zero_r. }
  assert (Hstay : (num_abs (rt - rt) >? eps)%num = false).
  { now rewrite sub_diag, abs_zero. }
  assert (Hloop : newton_raphson_loop (linear rt) (constant one) zero eps max_its =
                  Return (if (num_abs rt >? eps)%num then mk_nr 0 rt rt
                          else mk_nr (-1) zero rt)).
  { unfold newton_raphson_loop. rewrite Hg0. cbn [bind].
    destruct (num_abs rt >? eps)%num eqn:Hbig.
    - assert (Hfuel : nr_fuel max_its = S (Z.to_nat max_its)).
      { unfold nr_fuel. lia. }
      rewrite Hfuel, nr_while_step.
      + cbn [r x_r x_r_plus_1]. rewrite Hg1. cbn [bind].
        apply nr_while_exit. unfold nr_test. cbn [r x_r x_r_plus_1].
        now rewrite Hstay.
      + apply nr_test_true. cbn [r x_r x_r_plus_1].
        rewrite sub_zero_r. split; [exact Hbig | lia].
    - apply nr_while_exit. unfold nr_test. cbn [r x_r x_r_plus_1].
      now rewrite sub_zero_r, Hbig. }
  split; [|split; [exact Hstay|]].
  - unfold newton_raphson. rewrite Hloop. cbn [bind].
    destruct (num_abs rt >? eps)%num; cbn [r x_r_plus_1].
    + destruct (Z.eqb_spec 0 max_its); [lia | reflexivity].
    + destruct (Z.eqb_spec (-1) max_its); [lia | reflexivity].
  - eexists. split; [exact Hloop|].
    destruct (num_abs rt >? eps)%num; split; reflexivity.
Qed.

(** ** Bisection *)

(** One case of the run: the next statement's outcome, or the next test. *)
Ltac case_run :=
  match goal with
  | |- context [bind ?o _] => destruct o eqn:?; cbn [bind]
  | |- context [if ?t then _ else _] => destruct t eqn:?
  end.

Section BisectionFacts.

Context {T : Type} `{Number T}.
Variables (f : T -> outcome T) (eps : T).

Local Open Scope py_scope.

Lemma bis_while_exit (fuel : nat) (s : bis_state) (y : T) :
  f (c s) = Return y -> (num_abs y >? eps)%num = false ->
  bis_while fuel f eps s = Return s.
Proof.
  intros Hf Ht. destruct fuel; simpl; rewrite Hf; cbn [bind]; rewrite Ht; reflexivity.
Qed.

(** The counter never goes down. *)
Lemma bis_while_its_le (fuel : nat) :
  forall s s', bis_while fuel f eps s = Return s' -> its s <= its s'.
Proof.
  induction fuel as [|fuel IH]; intros s s'; simpl.
  - repeat case_run; intros E; try discriminate E. injection E as <-. lia.
  - repeat case_run; intros E; try discriminate E;
      try (injection E as <-; cbn [its]; lia);
      apply IH in E; cbn [its] in E; lia.
Qed.

(** More fuel does not change an outcome that did not lack fuel. *)
Lemma bis_while_more_fuel (fuel : nat) :
  forall s o, bis_while fuel f eps s = o -> o <> OutOfFuel ->
  bis_while (S fuel) f eps s = o.
Proof.
  induction fuel as [|fuel IH]; intros s o.
  - simpl. repeat case_run; intros E Hne; try exact E; congruence.
  - change (bis_while (S (S fuel)) f eps s) with
      (fc <- f (c s) ;;
       if (num_abs fc >? eps)%num then
         fa <- f (a s) ;;
         fb <- f (b s) ;;
         if (fa * fb >=? zero)%num then Raise (ValueError not_same_sign_msg)
         else
           c1 <- ((a s + b s) / two)%num ;;
           fc1 <- f c1 ;;
           if (fc1 ==? zero)%num then Return (mk_bis (a s) (b s) c1 (its s))
           else
             fa' <- f (a s) ;;
             fc1' <- f c1 ;;
             let a' := if (fa' * fc1' <? zero)%num then a s else c1 in
             let b' := if (fa' * fc1' <? zero)%num then c1 else b s in
             c2 <- ((a' + b') / two)%num ;;
             bis_while (S fuel) f eps (mk_bis a' b' c2 (its s + 1))
       else Return s).
    simpl bis_while at 1.
    repeat case_run; intros E Hne; try exact E; now apply IH.
Qed.

Lemma bis_while_fuel_mono (fuel fuel' : nat) (s : bis_state) (o : outcome bis_state) :
  bis_while fuel f eps s = o -> o <> OutOfFuel -> (fuel <= fuel')%nat ->
  bis_while fuel' f eps s = o.
Proof.
  intros Hrun Hne Hle. induction Hle as [|fuel' _ IH]; [exact Hrun|].
  now apply bis_while_more_fuel.
Qed.

Lemma bisection_unfold (fuel : nat) (a0 b0 : T) (max_its : Z) :
  bisection fuel f a0 b0 eps max_its =
  (c0 <- ((a0 + b0) / two)%num ;;
   s <- bis_while fuel f eps (mk_bis a0 b0 c0 0) ;;
   bis_finish max_its s).
Proof.
  unfold bisection, bisection_loop. destruct ((a0 + b0) / two)%num; reflexivity.
Qed.

(** A result of bisection, value or exception, stands with any more fuel. *)
Lemma bisection_fuel_mono (fuel fuel' : nat) (a0 b0 : T) (max_its : Z) (o : outcome T) :
  bisection fuel f a0 b0 eps max_its = o -> o <> OutOfFuel -> (fuel <= fuel')%nat ->
  bisection fuel' f a0 b0 eps max_its = o.
Proof.
  rewrite !bisection_unfold. intros Hrun Hne Hle.
  destruct ((a0 + b0) / two)%num as [c0| |]; cbn [bind] in *; try exact Hrun.
  destruct (bis_while fuel f eps (mk_bis a0 b0 c0 0)) as [s| e |] eqn:Hloop;
    cbn [bind] in Hrun.
  - rewrite (bis_while_fuel_mono fuel fuel' _ (Return s)); auto; discriminate.
  - rewrite (bis_while_fuel_mono fuel fuel' _ (Raise e)); auto; discriminate.
  - congruence.
Qed.

(** The loop is not entered: the state is the initial one, on any fuel. *)
Lemma bisection_loop_skipped (fuel : nat) (a0 b0 c0 y : T) :
  ((a0 + b0) / two)%num = Return c0 ->
  f c0 = Return y -> (num_abs y >? eps)%num = false ->
  bisection_loop fuel f a0 b0 eps = Return (mk_bis a0 b0 c0 0).
Proof.
  intros Hc Hf Ht. unfold bisection_loop. rewrite Hc. cbn [bind].
  now apply bis_while_exit with (y := y).
Qed.

(** The first run of the body on a bracket whose ends fail the sign test. *)
Lemma bisection_loop_bad_bracket (fuel : nat) (a0 b0 c0 y ya yb : T) :
  ((a0 + b0) / two)%num = Return c0 ->
  f c0 = Return y -> (num_abs y >? eps)%num = true ->
  f a0 = Return ya -> f b0 = Return yb -> (ya * yb >=? zero)%num = true ->
  bisection_loop (S fuel) f a0 b0 eps = Raise (ValueError not_same_sign_msg).
Proof.
  intros Hc Hf Ht Ha Hb Hs. unfold bisection_loop. rewrite Hc. cbn [bind].
  simpl. rewrite Hf. cbn [bind]. rewrite Ht, Ha. cbn [bind]. rewrite Hb.
  cbn [bind]. now rewrite Hs.
Qed.

(** The first run of the body when [f] is exactly zero at its midpoint. *)
Lemma bisection_loop_break (fuel : nat) (a0 b0 c0 y ya yb : T) :
  ((a0 + b0) / two)%num = Return c0 ->
  f c0 = Return y -> (num_abs y >? eps)%num = true ->
  f a0 = Return ya -> f b0 = Return yb -> (ya * yb >=? zero)%num = false ->
  (y ==? zero)%num = true ->
  bisection_loop (S fuel) f a0 b0 eps = Return (mk_bis a0 b0 c0 0).
Proof.
  intros Hc Hf Ht Ha Hb Hs Hz. unfold bisection_loop. rewrite Hc. cbn [bind].
  simpl. rewrite Hf. cbn [bind]. rewrite Ht, Ha. cbn [bind]. rewrite Hb.
  cbn [bind]. rewrite Hs, Hc. cbn [bind]. rewrite Hf. cbn [bind].
  now rewrite Hz.
Qed.

(** A function with only the two values [lo] and [hi], of opposite sign
    and both beyond the tolerance, keeps the loop running: the bracket
    always has [lo] at its left end and [hi] at its right end. *)
Lemma bis_while_two_valued_diverges (lo hi : T) :
  (forall x, f x = Return lo \/ f x = Return hi) ->
  (forall x, exists q, (x / two)%num = Return q) ->
  (num_abs lo >? eps)%num = true -> (num_abs hi >? eps)%num = true ->
  (lo * hi >=? zero)%num = false ->
  (lo ==? zero)%num = false -> (hi ==? zero)%num = false ->
  (lo * lo <? zero)%num = false -> (lo * hi <? zero)%num = true ->
  forall fuel s, f (a s) = Return lo -> f (b s) = Return hi ->
  bis_while fuel f eps s = OutOfFuel.
Proof.
  intros Hf Hdiv Hlo Hhi Hsign Hlo0 Hhi0 Hll Hlh.
  assert (Hbig : forall x, exists y, f x = Return y /\ (num_abs y >? eps)%num = true).
  { intros x. destruct (Hf x) as [E|E]; eauto. }
  induction fuel as [|fuel IH]; intros s Ha Hb.
  - simpl. destruct (Hbig (c s)) as (y & -> & Hy). cbn [bind].
    now rewrite Hy.
  - simpl. destruct (Hbig (c s)) as (y & -> & Hy). cbn [bind].
    rewrite Hy, Ha. cbn [bind]. rewrite Hb. cbn [bind]. rewrite Hsign.
    destruct (Hdiv (a s + b s)%num) as (c1 & ->). cbn [bind].
    destruct (Hf c1) as [Hc1|Hc1]; rewrite Hc1; cbn [bind].
    + rewrite Hlo0, Hll.
      destruct (Hdiv (c1 + b s)%num) as (c2 & ->). cbn [bind].
      apply IH; cbn [a b]; assumption.
    + rewrite Hhi0, Hlh.
      destruct (Hdiv (a s + c1)%num) as (c2 & ->). cbn [bind].
      apply IH; cbn [a b]; assumption.
Qed.

End BisectionFacts.

(** C3 (amended): when the loop is entered on a valid bracket and [f] is
    exactly zero at the midpoint computed in the body, the loop is left by
    the [break] with that midpoint and the counter still at 0; the cap is
    then checked all the same, so bisection raises ConvergenceError for
    [max_its = 0] (indeed for any [max_its <= 0]) and returns the midpoint
    only for [max_its > 0]. *)
Theorem bisection_exact_zero_exit {T : Type} `{Number T}
    (fuel : nat) (f : T -> outcome T) (a0 b0 eps c0 y ya yb : T) (max_its : Z) :
  ((a0 + b0) / two)%num = Return c0 ->
  f c0 = Return y -> (num_abs y >? eps)%num = true ->
  f a0 = Return ya -> f b0 = Return yb -> (ya * yb >=? zero)%num = false ->
  (y ==? zero)%num = true ->
  bisection_loop (S fuel) f a0 b0 eps = Return (mk_bis a0 b0 c0 0) /\
  bisection (S fuel) f a0 b0 eps 0 = Raise (ConvergenceError (exceeded_msg 0)) /\
  bisection (S fuel) f a0 b0 eps max_its =
    (if 0 >=? max_its then Raise (ConvergenceError (exceeded_msg max_its))
     else Return c0).
Proof.
  intros Hc Hf Ht Ha Hb Hs Hz.
  pose proof (bisection_loop_break f eps fuel a0 b0 c0 y ya yb Hc Hf Ht Ha Hb Hs Hz)
    as Hloop.
  split; [exact Hloop|]. unfold bisection. rewrite Hloop. cbn [bind its c].
  split; reflexivity.
Qed.

(** C6 (amended): on a bracket whose ends fail the sign test
    ([f(a) * f(b) >= 0]), bisection raises the invalid-bracket ValueError
    in the first run of the loop body, provided the loop is entered, that
    is, [|f((a+b)/2)| > eps]; the test is made nowhere else, so when the
    midpoint already meets the tolerance no ValueError is raised and the
    run ends in the cap check. *)
Theorem bisection_same_sign {T : Type} `{Number T}
    (fuel : nat) (f : T -> outcome T) (a0 b0 eps c0 y ya yb : T) (max_its : Z) :
  f a0 = Return ya -> f b0 = Return yb -> (ya * yb >=? zero)%num = true ->
  ((a0 + b0) / two)%num = Return c0 -> f c0 = Return y ->
  bisection (S fuel) f a0 b0 eps max_its =
    (if (num_abs y >? eps)%num then Raise (ValueError not_same_sign_msg)
     else if 0 >=? max_its then Raise (ConvergenceError (exceeded_msg max_its))
     else Return c0).
Proof.
  intros Ha Hb Hs Hc Hf. unfold bisection.
  destruct (num_abs y >? eps)%num eqn:Ht.
  - now rewrite (bisection_loop_bad_bracket f eps fuel a0 b0 c0 y ya yb).
  - now rewrite (bisection_loop_skipped f eps (S fuel) a0 b0 c0 y).
Qed.

(** C9: on a bracket whose ends fail the sign test, when the initial
    midpoint [c = (a+b)/2] already meets the tolerance, [|f(c)| <= eps],
    and [max_its > 0], bisection returns [c]: the loop body, where the
    bracket is tested, is never entered (the loop is left with no fuel
    used), so no ValueError is raised. *)
Theorem bisection_invalid_bracket_unnoticed {T : Type} `{LeOrder T}
    (fuel : nat) (f : T -> outcome T) (a0 b0 eps c0 y ya yb : T) (max_its : Z) :
  f a0 = Return ya -> f b0 = Return yb -> (ya * yb >=? zero)%num = true ->
  ((a0 + b0) / two)%num = Return c0 -> f c0 = Return y ->
  (num_abs y <=? eps)%num = true ->
  0 < max_its ->
  bisection fuel f a0 b0 eps max_its = Return c0 /\
  bisection_loop 0 f a0 b0 eps = Return (mk_bis a0 b0 c0 0).
Proof.
  intros _ _ _ Hc Hf Hle Hcap. apply leb_not_gtb in Hle. split.
  - unfold bisection.
    rewrite (bisection_loop_skipped f eps fuel a0 b0 c0 y Hc Hf Hle).
    cbn [bind its c]. destruct (Z.geb_spec 0 max_its); [lia | reflexivity].
  - exact (bisection_loop_skipped f eps 0 a0 b0 c0 y Hc Hf Hle).
Qed.

(** Whatever the function and the bracket, bisection returns no value
    when the cap is zero or negative: the counter starts at 0 and the cap
    is checked on every way out of the loop. *)
Lemma bisection_cap_nonpositive {T : Type} `{Number T}
    (fuel : nat) (f : T -> outcome T) (a0 b0 eps : T) (max_its : Z) (v : T) :
  max_its <= 0 -> bisection fuel f a0 b0 eps max_its <> Return v.
Proof.
  intros Hcap. rewrite bisection_unfold.
  destruct ((a0 + b0) / two)%num as [c0| |]; cbn [bind]; try discriminate.
  destruct (bis_while fuel f eps (mk_bis a0 b0 c0 0)) as [s| |] eqn:Hloop;
    cbn [bind]; try discriminate.
  apply bis_while_its_le in Hloop. cbn [its] in Hloop. unfold bis_finish.
  destruct (Z.geb_spec (its s) max_its); [discriminate | lia].
Qed.

(** ** Solve *)

Section SolveFacts.

Context {T : Type} `{Number T}.
Variables (fuel : nat) (f df : T -> outcome T) (x_0 x_1 eps : T).
Variables (max_its_n max_its_b : Z).

(** The run of solve, by the outcomes of the two solvers it calls. *)
Lemma solve_cases :
  solve fuel f df x_0 x_1 eps max_its_n max_its_b =
  match newton_raphson f df x_0 eps max_its_n with
  | Return root_n =>
      ("Trying Newton's Method" :: "Newton worked" :: nil, Return (Some root_n))
  | Raise e =>
      if is_ConvergenceError e then
        match bisection fuel f x_0 x_1 eps max_its_b with
        | Return root_b =>
            ("Trying Newton's Method" :: "Newton did not work"
               :: "Trying Bisection method" :: "Bisection worked" :: nil,
             Return (Some root_b))
        | Raise e' =>
            if is_ValueError e' then
              ("Trying Newton's Method" :: "Newton did not work"
                 :: "Trying Bisection method" :: "Bisection did not work" :: nil,
               Return None)
            else
              ("Trying Newton's Method" :: "Newton did not work"
                 :: "Trying Bisection method" :: nil,
               Raise e')
        | OutOfFuel =>
            ("Trying Newton's Method" :: "Newton did not work"
               :: "Trying Bisection method" :: nil,
             OutOfFuel)
        end
      else ("Trying Newton's Method" :: nil, Raise e)
  | OutOfFuel => ("Trying Newton's Method" :: nil, OutOfFuel)
  end.
Proof.
  unfold solve.
  destruct (newton_raphson f df x_0 eps max_its_n) as [root_n| e |];
    [reflexivity | | reflexivity].
  destruct e; try reflexivity.
  destruct (bisection fuel f x_0 x_1 eps max_its_b) as [root_b| e' |];
    [reflexivity | | reflexivity].
  destruct e'; reflexivity.
Qed.

End SolveFacts.

(** C1: solve handles exactly two failures.  A ConvergenceError out of
    newton_raphson is caught, and then bisection runs on [x_0, x_1]; any
    exception of another kind out of newton_raphson leaves solve as it
    is, after the first notice, bisection not tried.  A ValueError out of
    bisection is caught, and then solve ends with no return value, all
    four notices printed; any exception of another kind out of bisection,
    a ConvergenceError of bisection among them, leaves solve as it is,
    after three notices.  A value from either solver is returned. *)
Theorem solve_catches_exactly {T : Type} `{Number T}
    (fuel : nat) (f df : T -> outcome T) (x_0 x_1 eps : T) (max_its_n max_its_b : Z) :
  (forall root_n, newton_raphson f df x_0 eps max_its_n = Return root_n ->
     solve fuel f df x_0 x_1 eps max_its_n max_its_b =
       ("Trying Newton's Method" :: "Newton worked" :: nil, Return (Some root_n))) /\
  (forall e, (forall msg, e <> ConvergenceError msg) ->
     newton_raphson f df x_0 eps max_its_n = Raise e ->
     solve fuel f df x_0 x_1 eps max_its_n max_its_b =
       ("Trying Newton's Method" :: nil, Raise e)) /\
  (forall msg, newton_raphson f df x_0 eps max_its_n = Raise (ConvergenceError msg) ->
     (forall root_b, bisection fuel f x_0 x_1 eps max_its_b = Return root_b ->
        solve fuel f df x_0 x_1 eps max_its_n max_its_b =
          ("Trying Newton's Method" :: "Newton did not work"
             :: "Trying Bisection method" :: "Bisection worked" :: nil,
           Return (Some root_b))) /\
     (forall msg', bisection fuel f x_0 x_1 eps max_its_b = Raise (ValueError msg') ->
        solve fuel f df x_0 x_1 eps max_its_n max_its_b =
          ("Trying Newton's Method" :: "Newton did not work"
             :: "Trying Bisection method" :: "Bisection did not work" :: nil,
           Return None)) /\
     (forall e', (forall msg', e' <> ValueError msg') ->
        bisection fuel f x_0 x_1 eps max_its_b = Raise e' ->
        solve fuel f df x_0 x_1 eps max_its_n max_its_b =
          ("Trying Newton's Method" :: "Newton did not work"
             :: "Trying Bisection method" :: nil,
           Raise e')) /\
     (forall msg', bisection fuel f x_0 x_1 eps max_its_b = Raise (ConvergenceError msg') ->
        solve fuel f df x_0 x_1 eps max_its_n max_its_b =
          ("Trying Newton's Method" :: "Newton did not work"
             :: "Trying Bisection method" :: nil,
           Raise (ConvergenceError msg')))).
Proof.
  rewrite solve_cases. split; [|split].
  - intros root_n ->. reflexivity.
  - intros e He ->. destruct e as [msg| | |]; try reflexivity. now destruct (He msg).
  - intros msg ->. cbn [is_ConvergenceError]. repeat split.
    + intros root_b ->. reflexivity.
    + intros msg' ->. reflexivity.
    + intros e' He' ->. destruct e' as [|msg'| |]; try reflexivity. now destruct (He' msg').
    + intros msg' ->. reflexivity.
Qed.

(** C4 (amended): with [max_its_n = 0], solve ends with no return value
    when newton_raphson raises ConvergenceError and bisection enters its
    loop on a bracket [x_0, x_1] whose ends fail the sign test: all four
    notices are printed and nothing is returned.  A derivative that is
    identically zero does not lead there: the first update divides by
    zero, and the ZeroDivisionError leaves solve uncaught before
    bisection is tried. *)
Theorem solve_no_return_value {T : Type} `{Number T}
    (fuel : nat) (f df : T -> outcome T) (x_0 x_1 eps c0 y ya yb : T)
    (max_its_b : Z) (msg : string) :
  newton_raphson f df x_0 eps 0 = Raise (ConvergenceError msg) ->
  f x_0 = Return ya -> f x_1 = Return yb -> (ya * yb >=? zero)%num = true ->
  ((x_0 + x_1) / two)%num = Return c0 -> f c0 = Return y ->
  (num_abs y >? eps)%num = true ->
  solve (S fuel) f df x_0 x_1 eps 0 max_its_b =
    ("Trying Newton's Method" :: "Newton did not work"
       :: "Trying Bisection method" :: "Bisection did not work" :: nil,
     Return None) /\
  (forall df0 : T -> outcome T,
     (forall x, exists d, df0 x = Return d /\ (d ==? zero)%num = true) ->
     solve (S fuel) f df0 x_0 x_1 eps 0 max_its_b =
       ("Trying Newton's Method" :: nil, Raise ZeroDivisionError)).
Proof.
  intros Hn Ha Hb Hs Hc Hf Ht. split.
  - rewrite solve_cases, Hn. cbn [is_ConvergenceError].
    unfold bisection.
    rewrite (bisection_loop_bad_bracket f eps fuel x_0 x_1 c0 y ya yb Hc Hf Ht Ha Hb Hs).
    reflexivity.
  - intros df0 Hdf0. rewrite solve_cases.
    assert (Hz : newton_raphson f df0 x_0 eps 0 = Raise ZeroDivisionError).
    { rewrite newton_raphson_unfold. unfold g. rewrite Ha. cbn [bind].
      destruct (Hdf0 x_0) as (d & -> & Hd). cbn [bind].
      unfold divide. now rewrite (div_by_zero ya d Hd). }
    rewrite Hz. reflexivity.
Qed.

(** When newton_raphson returns, solve returns its value after two
    notices; bisection is not run (the fuel, the right end [x_1] and
    bisection's cap play no part). *)
Theorem solve_newton_worked {T : Type} `{Number T}
    (fuel : nat) (f df : T -> outcome T) (x_0 x_1 eps root_n : T)
    (max_its_n max_its_b : Z) :
  newton_raphson f df x_0 eps max_its_n = Return root_n ->
  solve fuel f df x_0 x_1 eps max_its_n max_its_b =
    ("Trying Newton's Method" :: "Newton worked" :: nil, Return (Some root_n)).
Proof. intros Hn. rewrite solve_cases, Hn. reflexivity. Qed.

(** ** Runs on floats and on rationals *)

Section Runs.

Local Open Scope float_scope.

(** C8: for [f(x) = x * x - 2], bisection on [0, 2] with the default
    [eps] and [max_its] returns, given fuel for its 15 runs of the loop
    body, the float 1.414215087890625.  It is within [eps] of the square
    root of 2: in floating point, and exactly, as the rational it stands
    for lies between [sqrt 2 - 1/100000] and [sqrt 2 + 1/100000]. *)
Theorem bisection_sqrt_two (fuel : nat) :
  (15 <= fuel)%nat ->
  bisection fuel square_minus_two 0 2 default_eps default_max_its =
    Return 1.414215087890625 /\
  (abs (1.414215087890625 - sqrt 2) <=? default_eps) = true /\
  exists q : Q,
    float_to_Q 1.414215087890625 = Some q /\
    (0 < q - (1 # 100000))%Q /\
    ((q - (1 # 100000)) * (q - (1 # 100000)) < 2)%Q /\
    (2 < (q + (1 # 100000)) * (q + (1 # 100000)))%Q.
Proof.
  intros Hfuel. split; [|split].
  - apply bisection_fuel_mono with (fuel := 15%nat);
      [vm_compute; reflexivity | discriminate | exact Hfuel].
  - vm_compute. reflexivity.
  - eexists. split; [vm_compute; reflexivity|].
    repeat split; vm_compute; reflexivity.
Qed.

(** With exactly the fuel of the 15 runs. *)
Lemma bisection_sqrt_two_witness :
  bisection 15 square_minus_two 0 2 default_eps default_max_its =
    Return 1.414215087890625.
Proof. apply (bisection_sqrt_two 15). apply le_n. Defined.

(** C3, refuted as stated: on [f(x) = x] over [-1, 1] with [eps = -1] the
    loop is entered, [f] is exactly zero at the midpoint 0 computed in
    the body and the loop is left by the [break] with the counter at 0;
    yet with [max_its = 0] bisection raises ConvergenceError instead of
    returning the midpoint, as it does for that cap on every input. *)
Lemma bisection_exact_zero_cap_zero_raises :
  bisection_loop 1 identity (-1) 1 (-1) = Return (mk_bis (-1) 1 0 0) /\
  identity 0 = Return 0 /\ (0 ==? zero)%num = true /\
  bisection 1 identity (-1) 1 (-1) 0 =
    Raise (ConvergenceError "max_its of 0 has been exceeded") /\
  (forall fuel, (1 <= fuel)%nat ->
     bisection fuel identity (-1) 1 (-1) 0 =
       Raise (ConvergenceError "max_its of 0 has been exceeded") /\
     bisection fuel identity (-1) 1 (-1) 0 <> Return 0).
Proof.
  assert (Hrun : forall fuel, (1 <= fuel)%nat ->
            bisection fuel identity (-1) 1 (-1) 0 =
              Raise (ConvergenceError "max_its of 0 has been exceeded")).
  { intros fuel Hfuel. apply bisection_fuel_mono with (fuel := 1%nat);
      [vm_compute; reflexivity | discriminate | exact Hfuel]. }
  repeat split; try (vm_compute; reflexivity).
  - now apply Hrun.
  - rewrite Hrun by assumption. discriminate.
Qed.

(** The same run, and the one with a cap of 5, which returns. *)
Lemma bisection_exact_zero_exit_witness :
  bisection_loop 1 identity (-1) 1 (-1) = Return (mk_bis (-1) 1 0 0) /\
  bisection 1 identity (-1) 1 (-1) 0 = Raise (ConvergenceError (exceeded_msg 0)) /\
  bisection 1 identity (-1) 1 (-1) 5 =
    (if (0 >=? 5)%Z then Raise (ConvergenceError (exceeded_msg 5)) else Return 0).
Proof.
  apply (bisection_exact_zero_exit 0 identity (-1) 1 (-1) 0 0 (-1) 1 5);
    reflexivity.
Defined.

(** C4, refuted as stated: [f(x) = x * x + 1] has the same sign at 0 and
    at 1, the derivative given is identically zero and [max_its_n = 0];
    solve raises ZeroDivisionError after its first notice instead of
    ending without a return value. *)
Lemma solve_zero_derivative_raises :
  square_plus 1 0 = Return 1 /\ square_plus 1 1 = Return 2 /\
  (1 * 2 >=? zero)%num = true /\
  solve 30 (square_plus 1) (constant 0) 0 1 default_eps 0 default_max_its =
    ("Trying Newton's Method"%string :: nil, Raise ZeroDivisionError) /\
  snd (solve 30 (square_plus 1) (constant 0) 0 1 default_eps 0 default_max_its)
    <> Return None.
Proof.
  repeat split; try (vm_compute; reflexivity).
  vm_compute. discriminate.
Qed.

(** With the derivative 1 instead, newton_raphson raises ConvergenceError
    and solve ends without a value. *)
Lemma solve_no_return_value_witness :
  solve 1 (square_plus 1) (constant 1) 0 1 default_eps 0 default_max_its =
    ("Trying Newton's Method" :: "Newton did not work"
       :: "Trying Bisection method" :: "Bisection did not work" :: nil,
     Return None)%string /\
  (forall df0 : float -> outcome float,
     (forall x, exists d, df0 x = Return d /\ (d ==? zero)%num = true) ->
     solve 1 (square_plus 1) df0 0 1 default_eps 0 default_max_its =
       ("Trying Newton's Method"%string :: nil, Raise ZeroDivisionError)).
Proof.
  apply (solve_no_return_value 0 (square_plus 1) (constant 1) 0 1 default_eps
           0.5 1.25 1 2 default_max_its (exceeded_msg 0));
    reflexivity.
Defined.

(** The five ways through solve, on floats.  [f(x) = x * x + 1] over
    [0, 1] with the cap 0: with the derivative 1 newton_raphson raises its
    ConvergenceError, which is caught, and the ValueError of bisection is
    caught too; with the derivative 0 the ZeroDivisionError is not caught.
    [f(x) = x * x - 2] over [0, 2] with the derivative 1 and the cap 0:
    bisection returns after the ConvergenceError of newton_raphson, and
    under its own cap of 5 it raises a ConvergenceError that is not
    caught.  With the derivative [2 * x], from 1, newton_raphson
    returns. *)
Lemma solve_catches_exactly_witness :
  solve 1 (square_plus 1) (constant 1) 0 1 default_eps 0 default_max_its =
    ("Trying Newton's Method" :: "Newton did not work"
       :: "Trying Bisection method" :: "Bisection did not work" :: nil,
     Return None)%string /\
  solve 1 (square_plus 1) (constant 0) 0 1 default_eps 0 default_max_its =
    ("Trying Newton's Method"%string :: nil, Raise ZeroDivisionError) /\
  solve 15 square_minus_two (constant 1) 0 2 default_eps 0 default_max_its =
    ("Trying Newton's Method" :: "Newton did not work"
       :: "Trying Bisection method" :: "Bisection worked" :: nil,
     Return (Some 1.414215087890625))%string /\
  solve 15 square_minus_two (constant 1) 0 2 default_eps 0 5 =
    ("Trying Newton's Method" :: "Newton did not work"
       :: "Trying Bisection method" :: nil,
     Raise (ConvergenceError (exceeded_msg 5)))%string /\
  solve 0 square_minus_two twice 1 2 default_eps default_max_its default_max_its =
    ("Trying Newton's Method" :: "Newton worked" :: nil,
     Return (Some 0x1.6a09e667f57dbp+0))%string.
Proof.
  split; [|split; [|split; [|split]]].
  - destruct (solve_catches_exactly 1 (square_plus 1) (constant 1) 0 1
                default_eps 0 default_max_its) as (_ & _ & Hcaught).
    destruct (Hcaught (exceeded_msg 0)) as (_ & Hvalue & _ & _);
      [vm_compute; reflexivity|].
    apply (Hvalue not_same_sign_msg). vm_compute. reflexivity.
  - destruct (solve_catches_exactly 1 (square_plus 1) (constant 0) 0 1
                default_eps 0 default_max_its) as (_ & Hother & _).
    apply Hother; [discriminate | vm_compute; reflexivity].
  - destruct (solve_catches_exactly 15 square_minus_two (constant 1) 0 2
                default_eps 0 default_max_its) as (_ & _ & Hcaught).
    destruct (Hcaught (exceeded_msg 0)) as (Hroot & _ & _ & _);
      [vm_compute; reflexivity|].
    apply Hroot. vm_compute. reflexivity.
  - destruct (solve_catches_exactly 15 square_minus_two (constant 1) 0 2
                default_eps 0 5) as (_ & _ & Hcaught).
    destruct (Hcaught (exceeded_msg 0)) as (_ & _ & _ & Hcap);
      [vm_compute; reflexivity|].
    apply Hcap. vm_compute. reflexivity.
  - destruct (solve_catches_exactly 0 square_minus_two twice 1 2
                default_eps default_max_its default_max_its) as (Hroot & _ & _).
    apply Hroot. vm_compute. reflexivity.
Defined.

(** C5, refuted as stated: for [f(x) = x * x + 1], [df(x) = 2 * x] and
    [x_0 = 1] the first step, from 1 to [g(1) = 0], exceeds [eps]; with
    [max_its = 0] the loop body evaluates [g(0)], where the derivative is
    zero, and newton_raphson raises ZeroDivisionError, not
    ConvergenceError. *)
Lemma newton_raphson_cap_zero_zero_division :
  g (square_plus 1) twice 1 = Return 0 /\
  (num_abs (0 - 1) >? default_eps)%num = true /\
  newton_raphson (square_plus 1) twice 1 default_eps 0 = Raise ZeroDivisionError /\
  (forall msg, newton_raphson (square_plus 1) twice 1 default_eps 0
                 <> Raise (ConvergenceError msg)).
Proof.
  repeat split; try (vm_compute; reflexivity).
  intros msg. vm_compute. discriminate.
Qed.

(** On [f(x) = x - 3] with derivative 1, from 0: the step to 3 exceeds
    [eps]. *)
Lemma newton_raphson_cap_zero_witness :
  newton_raphson (linear 3) (constant 1) 0 default_eps 0 =
  bind (g (linear 3) (constant 1) 3)
       (fun _ => Raise (ConvergenceError (exceeded_msg 0))).
Proof.
  apply (newton_raphson_cap_zero (linear 3) (constant 1) 0 default_eps 3);
    reflexivity.
Defined.

(** C6, refuted as stated: [f(x) = x * x] has the same sign at -1 and at
    1, yet bisection on [-1, 1] returns the midpoint 0, where [f] is 0,
    without entering the loop and without any ValueError. *)
Lemma bisection_same_sign_returns :
  square (-1) = Return 1 /\ square 1 = Return 1 /\
  (1 * 1 >=? zero)%num = true /\
  bisection 0 square (-1) 1 default_eps default_max_its = Return 0 /\
  (forall fuel,
     bisection fuel square (-1) 1 default_eps default_max_its = Return 0 /\
     forall msg, bisection fuel square (-1) 1 default_eps default_max_its
                   <> Raise (ValueError msg)).
Proof.
  assert (Hrun : forall fuel,
            bisection fuel square (-1) 1 default_eps default_max_its = Return 0).
  { intros fuel. apply bisection_fuel_mono with (fuel := 0%nat);
      [vm_compute; reflexivity | discriminate | apply Nat.le_0_l]. }
  repeat split; try (vm_compute; reflexivity).
  - apply Hrun.
  - intros msg. rewrite Hrun. discriminate.
Qed.

(** [f(x) = x * x + 1] on [0, 1]: the residual 1.25 at the midpoint 0.5
    exceeds [eps]. *)
Lemma bisection_same_sign_witness :
  bisection 1 (square_plus 1) 0 1 default_eps default_max_its =
    (if (num_abs 1.25 >? default_eps)%num then Raise (ValueError not_same_sign_msg)
     else if (0 >=? default_max_its)%Z
          then Raise (ConvergenceError (exceeded_msg default_max_its))
          else Return 0.5).
Proof.
  apply (bisection_same_sign 0 (square_plus 1) 0 1 default_eps 0.5 1.25 1 2
           default_max_its);
    reflexivity.
Defined.

(** [f(x) = x * x] on [-1, 1]: the midpoint 0 is a root. *)
Lemma bisection_invalid_bracket_unnoticed_witness :
  bisection 0 square (-1) 1 default_eps default_max_its = Return 0 /\
  bisection_loop 0 square (-1) 1 default_eps = Return (mk_bis (-1) 1 0 0).
Proof.
  apply (bisection_invalid_bracket_unnoticed 0 square (-1) 1 default_eps 0 0 1 1
           default_max_its);
    reflexivity.
Defined.

(** C7, refuted as stated: with the defaults, for [rt = 0] the loop body
    does not run at all, and for [rt = 3] it runs once, which makes two
    evaluations of [g]; so neither the runs of the loop nor the updates
    are exactly one for every [rt]. *)
Lemma newton_raphson_linear_iteration_counts :
  (exists s, newton_raphson_loop (linear 0) (constant 1) 0 default_eps default_max_its
               = Return s /\ loop_runs s = 0%Z /\ loop_runs s <> 1%Z) /\
  (exists s, newton_raphson_loop (linear 3) (constant 1) 0 default_eps default_max_its
               = Return s /\ updates s = 2%Z /\ updates s <> 1%Z).
Proof.
  split; eexists; (split; [vm_compute; reflexivity|]); split;
    try reflexivity; discriminate.
Qed.

(** The linear run on floats, for the two values above. *)
Example newton_raphson_linear_float :
  newton_raphson (linear 0) (constant 1) 0 default_eps default_max_its = Return 0 /\
  newton_raphson (linear 3) (constant 1) 0 default_eps default_max_its = Return 3.
Proof. split; vm_compute; reflexivity. Qed.

(** C10, refuted as stated: with [max_its = -2] the loop is never entered
    and newton_raphson returns [g(x_0) = 3] from [x_0 = 0], a step of 3;
    and from [x_0 = infinity], with the default cap, it returns a NaN,
    for which neither [>] nor [<=] holds of the step. *)
Lemma newton_raphson_large_step_returned :
  newton_raphson_loop (linear 3) (constant 1) 0 default_eps (-2) =
    Return (mk_nr (-1) 0 3) /\
  newton_raphson (linear 3) (constant 1) 0 default_eps (-2) = Return 3 /\
  (num_abs (3 - 0) >? default_eps)%num = true /\
  (num_abs (3 - 0) <=? default_eps)%num = false /\
  (exists v, newton_raphson_loop (linear 3) (constant 1) infinity default_eps
               default_max_its = Return (mk_nr (-1) infinity v) /\
             newton_raphson (linear 3) (constant 1) infinity default_eps
               default_max_its = Return v /\
             (abs (v - infinity) <=? default_eps) = false).
Proof.
  repeat split; try (vm_compute; reflexivity).
  eexists. repeat split; vm_compute; reflexivity.
Qed.

(** On [f(x) = x - 3] with derivative 1, from 0, with the defaults. *)
Lemma newton_raphson_returns_small_step_witness :
  (exists (k : nat) (xr : float),
     g_iter (linear 3) (constant 1) k 0 = Return xr /\
     g (linear 3) (constant 1) xr = Return 3 /\
     (num_abs (3 - xr) >? default_eps)%num = false /\
     (Z.of_nat k <= default_max_its)%Z) /\
  (exists w fw : float,
     newton_raphson (scaled_square 1e12) (scaled_twice 1e12)
       default_eps default_eps default_max_its = Return w /\
     scaled_square 1e12 w = Return fw /\
     (num_abs fw <? default_eps)%num = false).
Proof.
  apply (newton_raphson_returns_small_step (linear 3) (constant 1) 0 default_eps
           default_max_its 3).
  - unfold default_max_its. lia.
  - reflexivity.
Defined.

(** On [f(x) = x - 3] with derivative 1, from 0. *)
Lemma solve_newton_worked_witness :
  solve 0 (linear 3) (constant 1) 0 1 default_eps default_max_its default_max_its =
    ("Trying Newton's Method" :: "Newton worked" :: nil, Return (Some 3))%string.
Proof.
  apply (solve_newton_worked 0 (linear 3) (constant 1) 0 1 default_eps 3
           default_max_its default_max_its).
  reflexivity.
Defined.

(** The run on [x * x - 2] over [0, 2] with a cap of 0 does not return
    its value. *)
Lemma bisection_cap_nonpositive_witness :
  bisection 30 square_minus_two 0 2 default_eps 0 <> Return 1.414215087890625.
Proof.
  apply (bisection_cap_nonpositive 30 square_minus_two 0 2 default_eps 0).
  apply Z.le_refl.
Defined.

(** Bisection need not end: on a function that steps from -1 to 1 at
    1/3, over the bracket [0, 1], the loop runs whatever the fuel;
    [max_its] is looked at only after the loop. *)
Theorem bisection_may_diverge (fuel : nat) (max_its : Z) :
  bisection fuel (step_at 0x1.5555555555555p-2 (-1) 1) 0 1 default_eps max_its
    = OutOfFuel.
Proof.
  rewrite bisection_unfold.
  change ((0 + 1) / two)%num with (Return 0.5). cbn [bind].
  rewrite (bis_while_two_valued_diverges
             (step_at 0x1.5555555555555p-2 (-1) 1) default_eps (-1) 1);
    try reflexivity.
  - intros x. unfold step_at.
    destruct (x <? 0x1.5555555555555p-2)%num; [left | right]; reflexivity.
  - intros x. exists (x / 2). reflexivity.
Qed.

End Runs.

(** The run on a linear function: on floats, root 3 with the defaults;
    and on rationals. *)
Lemma newton_raphson_linear_witness :
  newton_raphson (linear 3%float) (constant one) zero default_eps default_max_its =
    Return 3%float /\
  (num_abs (3%float - 3%float) >? default_eps)%num = false /\
  exists s, newton_raphson_loop (linear 3%float) (constant one) zero default_eps
              default_max_its = Return s /\
            x_r_plus_1 s = 3%float /\
            loop_runs s = (if (num_abs 3%float >? default_eps)%num then 1 else 0).
Proof.
  apply (newton_raphson_linear 3%float default_eps default_max_its).
  - reflexivity.
  - reflexivity.
  - unfold default_max_its. lia.
Defined.

Example newton_raphson_linear_rational :
  newton_raphson (linear (Q2Qc 3)) (constant one) zero (Q2Qc (1 # 100000)) 20 =
    Return (Q2Qc 3).
Proof.
  apply (newton_raphson_linear (Q2Qc 3) (Q2Qc (1 # 100000)) 20).
  - exact I.
  - reflexivity.
  - lia.
Qed.

(** ** Further properties of newton_raphson *)

Section NewtonMore.

Context {T : Type} `{Number T}.
Variables (f df : T -> outcome T) (eps : T).

(** [g] ends whenever [f] and [df] do. *)
Lemma g_ends (x : T) :
  (forall y, f y <> OutOfFuel) -> (forall y, df y <> OutOfFuel) ->
  g f df x <> OutOfFuel.
Proof.
  intros Hf Hdf. unfold g, divide.
  destruct (f x) as [fx| |] eqn:Efx; cbn [bind]; [|discriminate|intros _; exact (Hf x Efx)].
  destruct (df x) as [dfx| |] eqn:Edf; cbn [bind]; [|discriminate|intros _; exact (Hdf x Edf)].
  destruct (num_div fx dfx); cbn [bind]; discriminate.
Qed.

Lemma newton_loop_spec_ends (max_its rr : Z) (msg : string) (xr xr1 : T)
    (o : outcome T) :
  newton_loop_spec f df eps max_its msg rr xr xr1 o ->
  (forall x, g f df x <> OutOfFuel) -> o <> OutOfFuel.
Proof.
  induction 1; intros Hg; try discriminate; auto.
  exfalso. eapply Hg. apply g_update_spec. eassumption.
Qed.

(** A returned value stands under a larger cap: the runs of the loop are
    the same. *)
Lemma newton_loop_spec_cap_mono (m m' rr : Z) (msg msg' : string) (xr xr1 : T)
    (o : outcome T) :
  newton_loop_spec f df eps m msg rr xr xr1 o ->
  forall v, o = Return v -> rr <= m -> m <= m' ->
  newton_loop_spec f df eps m' msg' rr xr xr1 (Return v).
Proof.
  induction 1 as [rr xr xr1 Hn He | rr xr xr1 Hn He
                 | rr xr xr1 xr2 o Hgt Hlt Hg _ IH
                 | rr xr xr1 e Hgt Hlt Hg | rr xr xr1 Hgt Hlt Hg];
    intros v Ho Hle Hm; try discriminate Ho.
  - injection Ho as <-. apply spec_exit_value; [|lia].
    intros [Hgt Hlt]. apply Hn. split; [exact Hgt | lia].
  - eapply spec_iterate; [exact Hgt | lia | exact Hg |].
    apply IH; [exact Ho | lia | exact Hm].
Qed.

End NewtonMore.

(** newton_raphson always ends: its loop stops by [r < max_its] at the
    latest, so the run lacks no fuel unless [f] or [df] itself does not
    end. *)
Theorem newton_raphson_terminates {T : Type} `{Number T}
    (f df : T -> outcome T) (x_0 eps : T) (max_its : Z) :
  (forall x, f x <> OutOfFuel) -> (forall x, df x <> OutOfFuel) ->
  newton_raphson f df x_0 eps max_its <> OutOfFuel.
Proof.
  intros Hf Hdf. rewrite newton_raphson_unfold.
  pose proof (fun x => g_ends f df x Hf Hdf) as Hg.
  destruct (g f df x_0) as [x1| |] eqn:Hg0; cbn [bind];
    [|discriminate|intros _; exact (Hg x_0 Hg0)].
  eapply newton_loop_spec_ends; [|exact Hg].
  apply (nr_while_meets_spec f df eps max_its (nr_fuel max_its) (mk_nr (-1) x_0 x1)).
  unfold nr_fuel. cbn [r]. lia.
Qed.

(** For a cap [max_its >= -1] the loop body runs at most [max_its + 1]
    times, the loop is left with its test false, and ConvergenceError is
    raised exactly when all [max_its + 1] runs were made, whatever the
    last step was; otherwise the last iterate is returned. *)
Theorem newton_raphson_runs_bounded {T : Type} `{Number T}
    (f df : T -> outcome T) (x_0 eps : T) (max_its : Z) (s : nr_state) :
  -1 <= max_its ->
  newton_raphson_loop f df x_0 eps max_its = Return s ->
  0 <= loop_runs s <= max_its + 1 /\
  nr_test eps max_its s = false /\
  (loop_runs s = max_its + 1 ->
     newton_raphson f df x_0 eps max_its =
       Raise (ConvergenceError (exceeded_msg max_its))) /\
  (loop_runs s <= max_its ->
     newton_raphson f df x_0 eps max_its = Return (x_r_plus_1 s) /\
     (num_abs (x_r_plus_1 s - x_r s) >? eps)%num = false).
Proof.
  intros Hcap Hloop. unfold newton_raphson. rewrite Hloop. cbn [bind].
  unfold newton_raphson_loop in Hloop.
  destruct (g f df x_0) as [x1| |] eqn:Hg0; cbn [bind] in Hloop; try discriminate.
  destruct (nr_while_rule f df eps max_its (fun s => -1 <= r s <= max_its))
    with (3 := Hloop) as [Hr Ht].
  - intros s0 x' Hts Hs0 _. cbn [r]. apply nr_test_true in Hts. lia.
  - cbn [r]. lia.
  - unfold loop_runs. split; [lia|]. split; [exact Ht|]. split.
    + intros Hall. destruct (Z.eqb_spec (r s) max_its); [reflexivity | lia].
    + intros Hfew. destruct (Z.eqb_spec (r s) max_its); [lia|].
      split; [reflexivity|].
      unfold nr_test in Ht. apply andb_false_iff in Ht as [Ht|Ht]; [exact Ht|].
      apply Z.ltb_ge in Ht. lia.
Qed.

(** A value returned under a cap [m >= -1] is returned under every
    larger cap. *)
Theorem newton_raphson_cap_mono {T : Type} `{Number T}
    (f df : T -> outcome T) (x_0 eps : T) (m m' : Z) (v : T) :
  -1 <= m -> m <= m' ->
  newton_raphson f df x_0 eps m = Return v ->
  newton_raphson f df x_0 eps m' = Return v.
Proof.
  intros Hm Hle. rewrite !newton_raphson_unfold.
  destruct (g f df x_0) as [x1| |] eqn:Hg0; cbn [bind]; try discriminate.
  intros Hrun. apply newton_loop_spec_run; [|unfold nr_fuel; lia].
  apply newton_loop_spec_cap_mono with (m := m) (msg := exceeded_msg m) (o := Return v);
    [|reflexivity | lia | exact Hle].
  rewrite <- Hrun.
  apply (nr_while_meets_spec f df eps m (nr_fuel m) (mk_nr (-1) x_0 x1)).
  unfold nr_fuel. cbn [r]. lia.
Qed.

(** From a fixed point of [g] (a root of [f], in exact arithmetic), with
    a tolerance that is not negative, newton_raphson returns the starting
    point without entering its loop, unless the cap is -1. *)
Theorem newton_raphson_fixed_point {T : Type} `{ExactArith T}
    (f df : T -> outcome T) (x_0 eps : T) (max_its : Z) :
  g f df x_0 = Return x_0 -> regular x_0 ->
  (zero >? eps)%num = false -> max_its <> -1 ->
  newton_raphson_loop f df x_0 eps max_its = Return (mk_nr (-1) x_0 x_0) /\
  newton_raphson f df x_0 eps max_its = Return x_0.
Proof.
  intros Hg Hreal Heps Hcap.
  assert (Hloop : newton_raphson_loop f df x_0 eps max_its = Return (mk_nr (-1) x_0 x_0)).
  { unfold newton_raphson_loop. rewrite Hg. cbn [bind]. apply nr_while_exit.
    unfold nr_test. cbn [r x_r x_r_plus_1]. now rewrite sub_diag, abs_zero, Heps. }
  split; [exact Hloop|]. unfold newton_raphson. rewrite Hloop. cbn [bind r x_r_plus_1].
  destruct (Z.eqb_spec (-1) max_its); [congruence | reflexivity].
Qed.

(** ** Further properties of bisection *)

Section BisectionMore.

Context {T : Type} `{Number T}.
Variables (f : T -> outcome T) (eps : T).

(** The loop is left at a midpoint whose residual fails the loop test, or
    is exactly zero (the [break]). *)
Lemma bis_while_residual (fuel : nat) :
  forall s s', bis_while fuel f eps s = Return s' ->
  exists y, f (c s') = Return y /\
            ((num_abs y >? eps)%num = false \/ (y ==? zero)%num = true).
Proof.
  induction fuel as [|fuel IH]; intros s s'; simpl.
  - destruct (f (c s)) as [y| |] eqn:Hf; cbn [bind]; try discriminate.
    destruct (num_abs y >? eps)%num eqn:Ht; [discriminate|].
    intros E. injection E as <-. eauto.
  - destruct (f (c s)) as [y| |] eqn:Hf; cbn [bind]; try discriminate.
    destruct (num_abs y >? eps)%num eqn:Ht;
      [|intros E; injection E as <-; eauto].
    destruct (f (a s)) as [fa| |]; cbn [bind]; try discriminate.
    destruct (f (b s)) as [fb| |]; cbn [bind]; try discriminate.
    destruct (fa * fb >=? zero)%num; [discriminate|].
    destruct ((a s + b s) / two)%num as [c1| |]; cbn [bind]; try discriminate.
    destruct (f c1) as [fc1| |] eqn:Hc1; cbn [bind]; try discriminate.
    destruct (fc1 ==? zero)%num eqn:Hz.
    + intros E. injection E as <-. cbn [c]. eauto.
    + cbn [bind].
      match goal with
      | |- context [divide ?x two] =>
          destruct (divide x two) as [c2| |]; cbn [bind]; try discriminate
      end.
      apply IH.
Qed.

End BisectionMore.

(** A value bisection returns is a point where the residual does not
    exceed the tolerance (the loop test [|f(v)| > eps] is false) or is
    exactly zero; it is the midpoint [c] the loop was left with, and the
    counter [its] is then below the cap: [0 <= its < max_its].  The
    counter counts the runs of the body that reached [its += 1]; a run
    left by the [break] is not counted. *)
Theorem bisection_returns_small_residual {T : Type} `{Number T}
    (fuel : nat) (f : T -> outcome T) (a0 b0 eps v : T) (max_its : Z) :
  bisection fuel f a0 b0 eps max_its = Return v ->
  (exists y, f v = Return y /\
             ((num_abs y >? eps)%num = false \/ (y ==? zero)%num = true)) /\
  (exists s, bisection_loop fuel f a0 b0 eps = Return s /\
             c s = v /\ 0 <= its s < max_its).
Proof.
  intros Hrun. unfold bisection in Hrun.
  destruct (bisection_loop fuel f a0 b0 eps) as [s| |] eqn:Hloop;
    cbn [bind] in Hrun; try discriminate.
  destruct (Z.geb_spec (its s) max_its) as [Hge|Hlt]; [discriminate|].
  injection Hrun as <-.
  unfold bisection_loop in Hloop.
  destruct ((a0 + b0) / two)%num as [c0| |]; cbn [bind] in Hloop; try discriminate.
  split.
  - exact (bis_while_residual f eps fuel _ _ Hloop).
  - exists s. split; [reflexivity|]. split; [reflexivity|].
    apply bis_while_its_le in Hloop. cbn [its] in Hloop. lia.
Qed.

(** *** On floats *)

Lemma float_eqb_zero (y : float) :
  PrimFloat.eqb y 0%float = true -> exists s, Prim2SF y = S754_zero s.
Proof.
  rewrite FloatAxioms.eqb_spec. change (Prim2SF 0%float) with (S754_zero false).
  destruct (Prim2SF y) as [s | [|] | | [|] m e]; cbn; try discriminate.
  intros _. now exists s.
Qed.

Lemma float_abs_of_zero (y : float) :
  PrimFloat.eqb y 0%float = true -> PrimFloat.abs y = 0%float.
Proof.
  intros Hy. destruct (float_eqb_zero y Hy) as [s Hs].
  apply Prim2SF_inj. rewrite abs_spec, Hs. reflexivity.
Qed.

Lemma float_mul_zero_l (x y : float) :
  PrimFloat.eqb x 0%float = true -> float_is_finite y = true ->
  PrimFloat.leb 0%float (PrimFloat.mul x y) = true.
Proof.
  intros Hx Hy. destruct (float_eqb_zero x Hx) as [s Hs].
  rewrite leb_spec, mul_spec, Hs. change (Prim2SF 0%float) with (S754_zero false).
  unfold float_is_finite in Hy.
  destruct (Prim2SF y) as [sy | sy | | sy m e]; try discriminate Hy; reflexivity.
Qed.

Lemma float_mul_zero_r (x y : float) :
  PrimFloat.eqb y 0%float = true -> float_is_finite x = true ->
  PrimFloat.leb 0%float (PrimFloat.mul x y) = true.
Proof.
  intros Hy Hx. destruct (float_eqb_zero y Hy) as [s Hs].
  rewrite leb_spec, mul_spec, Hs. change (Prim2SF 0%float) with (S754_zero false).
  unfold float_is_finite in Hx.
  destruct (Prim2SF x) as [sx | sx | | sx m e]; try discriminate Hx; reflexivity.
Qed.

(** On floats, with a tolerance that is not negative, the value bisection
    returns always fails the loop test: [|f(v)| > eps] is false, on the
    [break] path too, since an exact zero has the absolute value [+0.0]. *)
Theorem bisection_float_residual
    (fuel : nat) (f : float -> outcome float) (a0 b0 eps v : float) (max_its : Z) :
  (zero >? eps)%num = false ->
  bisection fuel f a0 b0 eps max_its = Return v ->
  exists y, f v = Return y /\ (num_abs y >? eps)%num = false.
Proof.
  intros Heps Hrun. unfold bisection in Hrun.
  destruct (bisection_loop fuel f a0 b0 eps) as [s| |] eqn:Hloop;
    cbn [bind] in Hrun; try discriminate.
  destruct (its s >=? max_its); [discriminate|]. injection Hrun as <-.
  unfold bisection_loop in Hloop.
  destruct ((a0 + b0) / two)%num as [c0| |]; cbn [bind] in Hloop; try discriminate.
  destruct (bis_while_residual f eps fuel _ _ Hloop) as (y & Hy & [Ht|Hz]).
  - now exists y.
  - exists y. split; [exact Hy|].
    change (num_abs y) with (PrimFloat.abs y).
    now rewrite (float_abs_of_zero y Hz).
Qed.

(** On floats, a bracket one of whose ends is an exact root of [f] (the
    value at the other end being finite) is taken for an invalid one: when
    the loop is entered, bisection raises the ValueError instead of
    returning that end. *)
Theorem bisection_root_at_end_rejected
    (fuel : nat) (f : float -> outcome float) (a0 b0 eps ya yb y : float)
    (max_its : Z) :
  f a0 = Return ya -> f b0 = Return yb ->
  float_is_finite ya = true -> float_is_finite yb = true ->
  (ya ==? zero)%num = true \/ (yb ==? zero)%num = true ->
  f ((a0 + b0) / 2)%float = Return y -> (num_abs y >? eps)%num = true ->
  bisection (S fuel) f a0 b0 eps max_its = Raise (ValueError not_same_sign_msg).
Proof.
  intros Ha Hb Hfa Hfb Hroot Hf Ht. unfold bisection.
  rewrite (bisection_loop_bad_bracket f eps fuel a0 b0 ((a0 + b0) / 2)%float y ya yb);
    try assumption; try reflexivity.
  destruct Hroot as [Hz|Hz].
  - now apply float_mul_zero_l.
  - now apply float_mul_zero_r.
Qed.

(** *** On exact rationals *)

Lemma Qc_mul_neg_iff (x y : Qc) :
  (x * y < Q2Qc 0)%Qc <-> (Qnum x * Qnum y < 0)%Z.
Proof.
  unfold Qclt. cbn [this Qcmult Q2Qc].
  rewrite !Qred_correct. unfold Qlt. cbn. lia.
Qed.

Lemma Qc_zero_iff (x : Qc) : x = Q2Qc 0 <-> Qnum x = 0%Z.
Proof.
  split.
  - intros ->. reflexivity.
  - intros Hx. apply Qc_is_canon. unfold Qeq. cbn. lia.
Qed.

Lemma Qc_sign_keep (x y z : Qc) :
  (x * y < Q2Qc 0)%Qc -> ~ (x * z < Q2Qc 0)%Qc -> z <> Q2Qc 0 ->
  (z * y < Q2Qc 0)%Qc.
Proof. rewrite !Qc_mul_neg_iff, Qc_zero_iff. nia. Qed.

Lemma Qc_two : Q2Qc 2 = (1 + 1)%Qc.
Proof. apply Qc_is_canon. reflexivity. Qed.

Lemma Qc_half_left (a b : Qc) : (((a + b) / Q2Qc 2 - a) * Q2Qc 2 = b - a)%Qc.
Proof. rewrite Qc_two. field. intros E. discriminate E. Qed.

Lemma Qc_half_right (a b : Qc) : ((b - (a + b) / Q2Qc 2) * Q2Qc 2 = b - a)%Qc.
Proof. rewrite Qc_two. field. intros E. discriminate E. Qed.

Lemma Qc_mid_between (a b : Qc) :
  (a <= b -> a <= (a + b) / Q2Qc 2 /\ (a + b) / Q2Qc 2 <= b)%Qc.
Proof.
  unfold Qcle, Qcdiv. cbn [this Qcplus Qcmult Qcinv Q2Qc]. rewrite !Qred_correct. intros Hab. split.
  all: change (/ 2)%Q with (1 # 2)%Q; lra.
Qed.

(* geb on Qc *)
Lemma Qc_geb_false (x y : Qc) : (x >=? y)%num = false <-> (x < y)%Qc.
Proof.
  cbn. unfold Qclt. rewrite Qlt_alt. unfold Qccompare.
  destruct (this x ?= this y)%Q; split; congruence.
Qed.
Lemma Qc_ltb_true (x y : Qc) : (x <? y)%num = true <-> (x < y)%Qc.
Proof.
  cbn. unfold Qclt. rewrite Qlt_alt. unfold Qccompare.
  destruct (this x ?= this y)%Q; split; congruence.
Qed.
Lemma Qc_eqb_true (x y : Qc) : (x ==? y)%num = true <-> x = y.
Proof. cbn. unfold Qc_eqb. destruct (Qc_eq_dec x y); split; congruence. Qed.
Lemma Qc_divide_two (x : Qc) : (x / two)%num = Return (x / Q2Qc 2)%Qc.
Proof. reflexivity. Qed.

Section BisectionPure.
Context {T : Type} `{Number T}.
Variable eps : T.
Local Open Scope py_scope.

(** The loop on a function that raises nothing. *)
Lemma bis_while_pure_0 (F : T -> T) (s : bis_state) :
  bis_while 0 (fun x => Return (F x)) eps s =
  if (num_abs (F (c s)) >? eps)%num then OutOfFuel else Return s.
Proof. reflexivity. Qed.

Lemma bis_while_pure_S (F : T -> T) (fuel : nat) (s : bis_state) :
  bis_while (S fuel) (fun x => Return (F x)) eps s =
  if (num_abs (F (c s)) >? eps)%num then
    if (F (a s) * F (b s) >=? zero)%num then Raise (ValueError not_same_sign_msg)
    else
      c1 <- ((a s + b s) / two)%num ;;
      if (F c1 ==? zero)%num then Return (mk_bis (a s) (b s) c1 (its s))
      else
        let a' := if (F (a s) * F c1 <? zero)%num then a s else c1 in
        let b' := if (F (a s) * F c1 <? zero)%num then c1 else b s in
        c2 <- ((a' + b') / two)%num ;;
        bis_while fuel (fun x => Return (F x)) eps (mk_bis a' b' c2 (its s + 1))
  else Return s.
Proof. reflexivity. Qed.
End BisectionPure.

Section BisectionRational.
Variables (F : Qc -> Qc) (eps : Qc).

(** What the loop keeps, from a state whose [c] is the midpoint of its
    bracket: after [n] more counted runs the bracket is the [2^n]-th part
    of what it was, lies inside it, still has [c] for its midpoint, and
    still has a change of sign if it had one. *)
Lemma bis_while_Qc_invariant (fuel : nat) :
  forall s s' : bis_state,
  c s = ((a s + b s) / Q2Qc 2)%Qc ->
  bis_while fuel (fun x => Return (F x)) eps s = Return s' ->
  exists n : nat,
    its s' = its s + Z.of_nat n /\
    ((b s' - a s') * Q2Qc 2 ^ n = b s - a s)%Qc /\
    c s' = ((a s' + b s') / Q2Qc 2)%Qc /\
    ((a s <= b s)%Qc -> (a s <= a s' /\ a s' <= b s' /\ b s' <= b s)%Qc) /\
    ((F (a s) * F (b s) < Q2Qc 0)%Qc -> (F (a s') * F (b s') < Q2Qc 0)%Qc).
Proof.
  induction fuel as [|fuel IH]; intros s s' Hc.
  - rewrite bis_while_pure_0.
    destruct (num_abs (F (c s)) >? eps)%num; [discriminate|].
    intros E. assert (Es : s' = s) by congruence. subst s'. exists 0%nat. cbn [a b c its].
      split; [lia|]. split; [cbn [Qcpower]; ring|]. split; [assumption|].
      split; [intros Hab; repeat split; try assumption; apply Qcle_refl
             | intros Hs0; assumption].
  - rewrite bis_while_pure_S.
    change (@num_add Qc Qc_Number) with Qcplus.
    change (@num_mul Qc Qc_Number) with Qcmult.
    change (@zero Qc Qc_Number) with (Q2Qc 0).
    destruct (num_abs (F (c s)) >? eps)%num.
    2:{ intros E. assert (Es : s' = s) by congruence. subst s'. exists 0%nat. cbn [a b c its].
      split; [lia|]. split; [cbn [Qcpower]; ring|]. split; [assumption|].
      split; [intros Hab; repeat split; try assumption; apply Qcle_refl
             | intros Hs0; assumption]. }
    destruct (num_geb (F (a s) * F (b s))%Qc (Q2Qc 0)) eqn:Hs; [discriminate|].
    apply Qc_geb_false in Hs.
    rewrite Qc_divide_two. cbn [bind].
    set (c1 := ((a s + b s) / Q2Qc 2)%Qc) in *.
    destruct (num_eqb (F c1) (Q2Qc 0)) eqn:Hz.
    + intros E. assert (Es : s' = mk_bis (a s) (b s) c1 (its s)) by congruence.
      subst s'. exists 0%nat. cbn [a b c its].
      split; [lia|]. split; [cbn [Qcpower]; ring|]. split; [reflexivity|].
      split; [intros Hab; repeat split; try assumption; apply Qcle_refl
             | intros Hs0; assumption].
    + assert (Hz' : F c1 <> Q2Qc 0).
      { intros E. apply Qc_eqb_true in E. congruence. }
      cbv zeta. rewrite Qc_divide_two. cbn [bind].
      destruct (num_ltb (F (a s) * F c1)%Qc (Q2Qc 0)) eqn:Hl.
      * apply Qc_ltb_true in Hl. intros Hrun.
        apply IH in Hrun; [|reflexivity].
        destruct Hrun as (n & Hits & Hw & Hmid & Hord & Hsign).
        cbn [a b c its] in *. exists (S n).
        split; [lia|]. split.
        { cbn [Qcpower]. rewrite <- (Qc_half_left (a s) (b s)). fold c1.
          rewrite <- Hw. ring. }
        split; [exact Hmid|]. split.
        { intros Hab. destruct (Qc_mid_between _ _ Hab) as [H1 H2]. fold c1 in H1, H2.
          destruct (Hord H1) as (Ha & Hb & Hc'). repeat split; try assumption.
          eapply Qcle_trans; eassumption. }
        { intros _. apply Hsign. exact Hl. }
      * assert (Hl' : ~ (F (a s) * F c1 < Q2Qc 0)%Qc).
        { intros E. apply Qc_ltb_true in E. congruence. }
        intros Hrun. apply IH in Hrun; [|reflexivity].
        destruct Hrun as (n & Hits & Hw & Hmid & Hord & Hsign).
        cbn [a b c its] in *. exists (S n).
        split; [lia|]. split.
        { cbn [Qcpower]. rewrite <- (Qc_half_right (a s) (b s)). fold c1.
          rewrite <- Hw. ring. }
        split; [exact Hmid|]. split.
        { intros Hab. destruct (Qc_mid_between _ _ Hab) as [H1 H2]. fold c1 in H1, H2.
          destruct (Hord H2) as (Ha & Hb & Hc'). repeat split; try assumption.
          eapply Qcle_trans; eassumption. }
        { intros _. apply Hsign. now apply Qc_sign_keep with (x := F (a s)). }
Qed.

End BisectionRational.

(** Over a sign change the loop raises nothing: neither function nor
    division fails, and the sign test passes in every run. *)
Lemma bis_while_Qc_no_raise (F : Qc -> Qc) (eps : Qc) (fuel : nat) :
  forall (s : bis_state) (e : exn),
  (F (a s) * F (b s) < Q2Qc 0)%Qc ->
  bis_while fuel (fun x => Return (F x)) eps s <> Raise e.
Proof.
  induction fuel as [|fuel IH]; intros s e Hs.
  - rewrite bis_while_pure_0.
    destruct (num_abs (F (c s)) >? eps)%num; discriminate.
  - rewrite bis_while_pure_S.
    change (@num_add Qc Qc_Number) with Qcplus.
    change (@num_mul Qc Qc_Number) with Qcmult.
    change (@zero Qc Qc_Number) with (Q2Qc 0).
    destruct (num_abs (F (c s)) >? eps)%num; [|discriminate].
    apply Qc_geb_false in Hs. rewrite Hs.
    apply Qc_geb_false in Hs.
    rewrite Qc_divide_two. cbn [bind].
    set (c1 := ((a s + b s) / Q2Qc 2)%Qc) in *.
    destruct (num_eqb (F c1) (Q2Qc 0)) eqn:Hz; [discriminate|].
    assert (Hz' : F c1 <> Q2Qc 0).
    { intros E. apply Qc_eqb_true in E. congruence. }
    cbv zeta. rewrite Qc_divide_two. cbn [bind].
    destruct (num_ltb (F (a s) * F c1)%Qc (Q2Qc 0)) eqn:Hl.
    + apply IH. cbn [a b]. now apply Qc_ltb_true.
    + apply IH. cbn [a b]. apply Qc_sign_keep with (x := F (a s)); auto.
      intros E. apply Qc_ltb_true in E. congruence.
Qed.

(** On exact rationals, for a function that raises nothing: when the loop
    of bisection is left, after [its] counted runs, [c] is the midpoint of
    the bracket [a, b] then held, whose width is the initial one divided
    by [2^its]; if [a0 <= b0] that bracket and [c] lie inside the initial
    one; and if [f] changed sign over the initial bracket it does over
    the last. *)
Theorem bisection_rational_bracket
    (fuel : nat) (F : Qc -> Qc) (a0 b0 eps : Qc) (s : bis_state) :
  bisection_loop fuel (pure_fn F) a0 b0 eps = Return s ->
  c s = ((a s + b s) / Q2Qc 2)%Qc /\
  0 <= its s /\
  ((b s - a s) * Q2Qc 2 ^ Z.to_nat (its s) = b0 - a0)%Qc /\
  ((a0 <= b0)%Qc ->
     (a0 <= a s /\ a s <= c s /\ c s <= b s /\ b s <= b0)%Qc) /\
  ((F a0 * F b0 < Q2Qc 0)%Qc -> (F (a s) * F (b s) < Q2Qc 0)%Qc).
Proof.
  unfold bisection_loop, pure_fn. rewrite Qc_divide_two. cbn [bind]. intros Hloop.
  apply bis_while_Qc_invariant in Hloop; [|reflexivity].
  destruct Hloop as (n & Hits & Hw & Hmid & Hord & Hsign). cbn [a b c its] in *.
  split; [exact Hmid|]. split; [lia|]. split.
  { replace (Z.to_nat (its s)) with n by lia. exact Hw. }
  split; [|exact Hsign].
  intros Hab. destruct (Hord Hab) as (H1 & H2 & H3).
  destruct (Qc_mid_between _ _ H2) as [H4 H5]. rewrite <- Hmid in H4, H5.
  repeat split; assumption.
Qed.

(** On exact rationals, for a function that raises nothing and changes
    sign over the bracket, the only exception bisection can raise is its
    own ConvergenceError: the sign test never fails in a later run. *)
Theorem bisection_rational_valid_bracket
    (fuel : nat) (F : Qc -> Qc) (a0 b0 eps : Qc) (max_its : Z) (e : exn) :
  (F a0 * F b0 < Q2Qc 0)%Qc ->
  bisection fuel (pure_fn F) a0 b0 eps max_its = Raise e ->
  e = ConvergenceError (exceeded_msg max_its).
Proof.
  intros Hs. rewrite bisection_unfold. unfold pure_fn.
  rewrite Qc_divide_two. cbn [bind].
  match goal with
  | |- context [bis_while ?n ?g ?t ?st] =>
      destruct (bis_while n g t st) as [s| e' |] eqn:Hloop
  end; cbn [bind]; try discriminate.
  - unfold bis_finish. destruct (its s >=? max_its); [|discriminate].
    intros E. now injection E as <-.
  - exfalso. revert Hloop. apply bis_while_Qc_no_raise. exact Hs.
Qed.

(** ** Bisection that does not end *)

(** On a function with only two values [lo] and [hi], both beyond the
    tolerance and neither equal to zero, whose product as the code
    computes it is negative ([lo * hi >= 0] is false and [lo * hi < 0] is
    true, so the product has not underflowed to a zero) while [lo * lo < 0]
    is false, and with a division by 2 that never fails, bisection over a
    bracket with [lo] at its left end and [hi] at its right end never
    leaves its loop, whatever the cap: no amount of fuel gives a
    result. *)
Theorem bisection_two_valued_diverges {T : Type} `{Number T}
    (fuel : nat) (f : T -> outcome T) (a0 b0 eps lo hi : T) (max_its : Z) :
  (forall x, f x = Return lo \/ f x = Return hi) ->
  (forall x, exists q, (x / two)%num = Return q) ->
  (num_abs lo >? eps)%num = true -> (num_abs hi >? eps)%num = true ->
  (lo * hi >=? zero)%num = false ->
  (lo ==? zero)%num = false -> (hi ==? zero)%num = false ->
  (lo * lo <? zero)%num = false -> (lo * hi <? zero)%num = true ->
  f a0 = Return lo -> f b0 = Return hi ->
  bisection fuel f a0 b0 eps max_its = OutOfFuel.
Proof.
  intros Hf Hdiv Hlo Hhi Hsign Hlo0 Hhi0 Hll Hlh Ha Hb.
  rewrite bisection_unfold. destruct (Hdiv (a0 + b0)%num) as (c0 & ->). cbn [bind].
  rewrite (bis_while_two_valued_diverges f eps lo hi); auto.
Qed.

(** ** The absent result of solve *)


(** solve returns a value exactly when newton_raphson returned it, or
    newton_raphson raised a ConvergenceError and bisection returned it:
    the value is always one of a solver's. *)
Theorem solve_some_iff {T : Type} `{Number T}
    (fuel : nat) (f df : T -> outcome T) (x_0 x_1 eps v : T)
    (max_its_n max_its_b : Z) :
  snd (solve fuel f df x_0 x_1 eps max_its_n max_its_b) = Return (Some v) <->
  newton_raphson f df x_0 eps max_its_n = Return v \/
  (exists msg, newton_raphson f df x_0 eps max_its_n = Raise (ConvergenceError msg) /\
               bisection fuel f x_0 x_1 eps max_its_b = Return v).
Proof.
  rewrite solve_cases. split.
  - destruct (newton_raphson f df x_0 eps max_its_n) as [w| e |]; cbn [snd].
    + intros E. left. congruence.
    + destruct e as [msg| | |]; cbn [is_ConvergenceError snd]; try discriminate.
      destruct (bisection fuel f x_0 x_1 eps max_its_b) as [w| e' |]; cbn [snd].
      * intros E. right. exists msg. split; congruence.
      * destruct (is_ValueError e'); cbn [snd]; discriminate.
      * discriminate.
    + discriminate.
  - intros [-> | (msg & -> & ->)]; reflexivity.
Qed.

(** ** The exceptions of functions that raise nothing themselves *)

Section PureExceptions.

Context {T : Type} `{Number T}.
Variables (F DF : T -> T) (eps : T).

Lemma g_pure_raise (x : T) (e : exn) :
  g (pure_fn F) (pure_fn DF) x = Raise e -> e = ZeroDivisionError.
Proof.
  unfold g, pure_fn, divide. cbn [bind].
  destruct (num_div (F x) (DF x)); cbn [bind]; congruence.
Qed.

Lemma g_pure_ends (x : T) : g (pure_fn F) (pure_fn DF) x <> OutOfFuel.
Proof.
  unfold g, pure_fn, divide. cbn [bind].
  destruct (num_div (F x) (DF x)); cbn [bind]; discriminate.
Qed.

Lemma newton_loop_spec_pure_raise (max_its rr : Z) (msg : string) (xr xr1 : T)
    (o : outcome T) :
  newton_loop_spec (pure_fn F) (pure_fn DF) eps max_its msg rr xr xr1 o ->
  forall e, o = Raise e ->
  e = ZeroDivisionError \/ e = ConvergenceError msg.
Proof.
  induction 1; intros e0 Ho; try discriminate Ho; auto.
  - right. congruence.
  - left. injection Ho as <-. eapply g_pure_raise. apply g_update_spec. eassumption.
Qed.

End PureExceptions.

Lemma newton_raphson_loop_raise_cases {T : Type} `{Number T}
    (F DF : T -> T) (x_0 eps : T) (max_its : Z) (e : exn) :
  newton_raphson (pure_fn F) (pure_fn DF) x_0 eps max_its = Raise e ->
  e = ZeroDivisionError \/ e = ConvergenceError (exceeded_msg max_its).
Proof.
  rewrite newton_raphson_unfold.
  destruct (g (pure_fn F) (pure_fn DF) x_0) as [x1| e0 |] eqn:Hg0; cbn [bind].
  - intros Hrun. eapply newton_loop_spec_pure_raise; [|exact Hrun].
    apply (nr_while_meets_spec (pure_fn F) (pure_fn DF) eps max_its
             (nr_fuel max_its) (mk_nr (-1) x_0 x1)).
    unfold nr_fuel. cbn [r]. lia.
  - intros E. injection E as <-. left. eapply g_pure_raise. exact Hg0.
  - discriminate.
Qed.

(** On numbers of class [Number], whose [+], [-], [*], [abs] and
    comparisons raise nothing and whose [/] raises nothing but
    ZeroDivisionError (floats and Fractions; not Python's ints, whose [/]
    can raise OverflowError): when [f] and [df] raise nothing,
    newton_raphson raises nothing but ZeroDivisionError, out of a division
    that fails, and its own ConvergenceError; and it always ends. *)
Theorem newton_raphson_pure_exceptions {T : Type} `{Number T}
    (F DF : T -> T) (x_0 eps : T) (max_its : Z) :
  newton_raphson (pure_fn F) (pure_fn DF) x_0 eps max_its <> OutOfFuel /\
  forall e, newton_raphson (pure_fn F) (pure_fn DF) x_0 eps max_its = Raise e ->
    e = ZeroDivisionError \/ e = ConvergenceError (exceeded_msg max_its).
Proof.
  split; [|intros e; apply newton_raphson_loop_raise_cases].
  rewrite newton_raphson_unfold.
  destruct (g (pure_fn F) (pure_fn DF) x_0) as [x1| e0 |] eqn:Hg0; cbn [bind];
    [|discriminate|intros _; exact (g_pure_ends F DF x_0 Hg0)].
  eapply newton_loop_spec_ends; [|apply g_pure_ends].
  apply (nr_while_meets_spec (pure_fn F) (pure_fn DF) eps max_its
           (nr_fuel max_its) (mk_nr (-1) x_0 x1)).
  unfold nr_fuel. cbn [r]. lia.
Qed.

(** On floats the loop of bisection, on a function that raises nothing,
    raises nothing but the ValueError of its sign test: the division by 2
    cannot fail. *)
Lemma bis_while_float_pure_raise (F : float -> float) (eps : float) (fuel : nat) :
  forall (s : bis_state) (e : exn),
  bis_while fuel (pure_fn F) eps s = Raise e -> e = ValueError not_same_sign_msg.
Proof.
  unfold pure_fn.
  induction fuel as [|fuel IH]; intros s e.
  - rewrite bis_while_pure_0.
    destruct (num_abs (F (c s)) >? eps)%num; discriminate.
  - rewrite bis_while_pure_S.
    destruct (num_abs (F (c s)) >? eps)%num; [|discriminate].
    destruct (F (a s) * F (b s) >=? zero)%num; [congruence|].
    change ((a s + b s) / two)%num with (Return (PrimFloat.div (a s + b s)%num 2)).
    cbn [bind].
    destruct (F (PrimFloat.div (a s + b s)%num 2) ==? zero)%num; [discriminate|].
    cbv zeta.
    match goal with
    | |- context [divide ?x two] =>
        change (divide x two) with (Return (PrimFloat.div x 2))
    end.
    cbn [bind]. apply IH.
Qed.

(** On floats, with [f] and [df] that raise nothing, the only exceptions
    that leave solve are a ZeroDivisionError of newton_raphson and the
    ConvergenceError of bisection: never a ValueError, and never the
    ConvergenceError of newton_raphson. *)
Theorem solve_float_pure_exceptions
    (fuel : nat) (F DF : float -> float) (x_0 x_1 eps : float)
    (max_its_n max_its_b : Z) (e : exn) :
  snd (solve fuel (pure_fn F) (pure_fn DF) x_0 x_1 eps max_its_n max_its_b) = Raise e ->
  (e = ZeroDivisionError /\
   newton_raphson (pure_fn F) (pure_fn DF) x_0 eps max_its_n = Raise e) \/
  (e = ConvergenceError (exceeded_msg max_its_b) /\
   bisection fuel (pure_fn F) x_0 x_1 eps max_its_b = Raise e).
Proof.
  rewrite solve_cases.
  destruct (newton_raphson (pure_fn F) (pure_fn DF) x_0 eps max_its_n)
    as [v| e0 |] eqn:Hn; cbn [snd]; try discriminate.
  destruct (newton_raphson_loop_raise_cases F DF x_0 eps max_its_n e0 Hn) as [-> | ->];
    cbn [is_ConvergenceError snd].
  - intros E. left. split; congruence.
  - destruct (bisection fuel (pure_fn F) x_0 x_1 eps max_its_b) as [v| e' |] eqn:Hb;
      cbn [snd]; try discriminate.
    assert (He' : e' = ValueError not_same_sign_msg \/
                  e' = ConvergenceError (exceeded_msg max_its_b)).
    { rewrite bisection_unfold in Hb.
      change ((x_0 + x_1) / two)%num with (Return (PrimFloat.div (x_0 + x_1)%num 2)) in Hb.
      cbn [bind] in Hb.
      match type of Hb with
      | context [bis_while ?n ?h ?t ?st] =>
          destruct (bis_while n h t st) as [s| e1 |] eqn:Hloop
      end; cbn [bind] in Hb; try discriminate.
      - right. unfold bis_finish in Hb.
        destruct (its s >=? max_its_b); [congruence | discriminate].
      - left. injection Hb as <-.
        eapply bis_while_float_pure_raise. exact Hloop. }
    destruct He' as [-> | ->]; cbn [is_ValueError snd]; [discriminate|].
    intros E. right. split; congruence.
Qed.

(** ** NaN on floats *)

Lemma float_nan_step (x eps : float) :
  PrimFloat.ltb eps (PrimFloat.abs (PrimFloat.sub nan x)) = false.
Proof.
  rewrite ltb_spec, abs_spec, sub_spec.
  change (Prim2SF nan) with S754_nan. cbn [SF64sub SFsub SFabs].
  unfold SFltb. destruct (Prim2SF eps); reflexivity.
Qed.

Lemma float_nan_residual (eps : float) :
  PrimFloat.ltb eps (PrimFloat.abs nan) = false.
Proof.
  rewrite ltb_spec, abs_spec.
  change (Prim2SF nan) with S754_nan. cbn [SFabs].
  unfold SFltb. destruct (Prim2SF eps); reflexivity.
Qed.

(** On floats, a NaN out of the first update is returned as the root: the
    loop test is false on it, whatever the tolerance, and no exception is
    raised (unless the cap is -1). *)
Theorem newton_raphson_nan_returned
    (f df : float -> outcome float) (x_0 eps : float) (max_its : Z) :
  g f df x_0 = Return nan -> max_its <> -1 ->
  newton_raphson_loop f df x_0 eps max_its = Return (mk_nr (-1) x_0 nan) /\
  newton_raphson f df x_0 eps max_its = Return nan.
Proof.
  intros Hg Hcap.
  assert (Hloop : newton_raphson_loop f df x_0 eps max_its = Return (mk_nr (-1) x_0 nan)).
  { unfold newton_raphson_loop. rewrite Hg. cbn [bind]. apply nr_while_exit.
    unfold nr_test. cbn [r x_r x_r_plus_1].
    change (num_abs (nan - x_0) >? eps)%num
      with (PrimFloat.ltb eps (PrimFloat.abs (PrimFloat.sub nan x_0))).
    now rewrite float_nan_step. }
  split; [exact Hloop|]. unfold newton_raphson. rewrite Hloop. cbn [bind r x_r_plus_1].
  destruct (Z.eqb_spec (-1) max_its); [congruence | reflexivity].
Qed.

(** On floats, when [f] is NaN at the first midpoint, bisection returns
    that midpoint for any positive cap: the loop is not entered, the
    bracket is not tested. *)
Theorem bisection_nan_returned
    (fuel : nat) (f : float -> outcome float) (a0 b0 eps : float) (max_its : Z) :
  f ((a0 + b0) / 2)%float = Return nan -> 0 < max_its ->
  bisection fuel f a0 b0 eps max_its = Return ((a0 + b0) / 2)%float.
Proof.
  intros Hf Hcap. unfold bisection.
  rewrite (bisection_loop_skipped f eps fuel a0 b0 ((a0 + b0) / 2)%float nan);
    [| reflexivity | exact Hf | apply float_nan_residual].
  cbn [bind its c]. destruct (Z.geb_spec 0 max_its); [lia | reflexivity].
Qed.

(** ** What solve's value satisfies *)

(** A value returned under a cap [max_its >= -1] is [g] of a point from
    which the step does not exceed the tolerance. *)
Lemma newton_raphson_last_step {T : Type} `{Number T}
    (f df : T -> outcome T) (x_0 eps v : T) (max_its : Z) :
  -1 <= max_its ->
  newton_raphson f df x_0 eps max_its = Return v ->
  exists xr, g f df xr = Return v /\ (num_abs (v - xr) >? eps)%num = false.
Proof.
  intros Hcap Hrun. rewrite newton_raphson_unfold in Hrun.
  destruct (g f df x_0) as [x1| |] eqn:Hg0; cbn [bind] in Hrun; try discriminate.
  destruct (nr_while (nr_fuel max_its) f df eps max_its (mk_nr (-1) x_0 x1))
    as [s'| |] eqn:Hloop; cbn [bind] in Hrun; try discriminate.
  destruct (nr_while_rule f df eps max_its
              (fun s => g f df (x_r s) = Return (x_r_plus_1 s) /\ r s <= max_its))
    with (3 := Hloop) as [[Hgs Hle] Ht].
  - intros s x' Hts [_ _] Hg. cbn [r x_r x_r_plus_1].
    apply nr_test_true in Hts. split; [exact Hg | lia].
  - cbn [r x_r x_r_plus_1]. split; [exact Hg0 | lia].
  - unfold nr_finish in Hrun.
    destruct (Z.eqb_spec (r s') max_its) as [He|Hne]; [discriminate|].
    injection Hrun as <-. exists (x_r s'). split; [exact Hgs|].
    unfold nr_test in Ht. apply andb_false_iff in Ht as [Ht|Ht]; [exact Ht|].
    apply Z.ltb_ge in Ht. lia.
Qed.

(** On floats, with a tolerance that is not negative and a cap
    [max_its_n >= -1], a value returned by solve meets one of the two
    criteria: it is a Newton update whose step does not exceed [eps], or a
    point where the residual of [f] does not exceed [eps]. *)
Theorem solve_float_value
    (fuel : nat) (f df : float -> outcome float) (x_0 x_1 eps v : float)
    (max_its_n max_its_b : Z) :
  -1 <= max_its_n -> (zero >? eps)%num = false ->
  snd (solve fuel f df x_0 x_1 eps max_its_n max_its_b) = Return (Some v) ->
  (exists xr, g f df xr = Return v /\ (num_abs (v - xr) >? eps)%num = false) \/
  (exists y, f v = Return y /\ (num_abs y >? eps)%num = false).
Proof.
  intros Hcap Heps. rewrite solve_cases.
  destruct (newton_raphson f df x_0 eps max_its_n) as [w| e |] eqn:Hn; cbn [snd].
  - intros E. injection E as <-. left.
    now apply newton_raphson_last_step with (x_0 := x_0) (max_its := max_its_n).
  - destruct (is_ConvergenceError e); cbn [snd]; [|discriminate].
    destruct (bisection fuel f x_0 x_1 eps max_its_b) as [w| e' |] eqn:Hb; cbn [snd].
    + intros E. injection E as <-. right.
      unfold bisection in Hb.
      destruct (bisection_loop fuel f x_0 x_1 eps) as [s| |] eqn:Hloop;
        cbn [bind] in Hb; try discriminate.
      destruct (its s >=? max_its_b); [discriminate|]. injection Hb as <-.
      unfold bisection_loop in Hloop.
      destruct ((x_0 + x_1) / two)%num as [c0| |]; cbn [bind] in Hloop;
        try discriminate.
      destruct (bis_while_residual f eps fuel _ _ Hloop) as (y & Hy & [Ht|Hz]).
      * now exists y.
      * exists y. split; [exact Hy|].
        change (num_abs y) with (PrimFloat.abs y).
        now rewrite (float_abs_of_zero y Hz).
    + destruct (is_ValueError e'); cbn [snd]; discriminate.
    + discriminate.
  - discriminate.
Qed.

(** ** Runs for the further properties *)

Section MoreRuns.

Local Open Scope float_scope.

(** On [f(x) = x - 3] with derivative 1, from 0. *)
Lemma newton_raphson_terminates_witness :
  newton_raphson (linear 3) (constant 1) 0 default_eps default_max_its <> OutOfFuel.
Proof.
  apply (newton_raphson_terminates (linear 3) (constant 1) 0 default_eps
           default_max_its);
    intros x; discriminate.
Defined.

Lemma newton_raphson_runs_bounded_witness :
  (0 <= loop_runs (mk_nr 0 3 3) <= default_max_its + 1)%Z /\
  nr_test default_eps default_max_its (mk_nr 0 3 3) = false /\
  (loop_runs (mk_nr 0 3 3) = (default_max_its + 1)%Z ->
     newton_raphson (linear 3) (constant 1) 0 default_eps default_max_its =
       Raise (ConvergenceError (exceeded_msg default_max_its))) /\
  ((loop_runs (mk_nr 0 3 3) <= default_max_its)%Z ->
     newton_raphson (linear 3) (constant 1) 0 default_eps default_max_its =
       Return (x_r_plus_1 (mk_nr 0 3 3)) /\
     (num_abs (x_r_plus_1 (mk_nr 0 3 3) - x_r (mk_nr 0 3 3)) >? default_eps)%num
       = false).
Proof.
  apply (newton_raphson_runs_bounded (linear 3) (constant 1) 0 default_eps
           default_max_its (mk_nr 0 3 3)).
  - unfold default_max_its. lia.
  - reflexivity.
Defined.

(** The value found under a cap of 1 is found under the default cap. *)
Lemma newton_raphson_cap_mono_witness :
  newton_raphson (linear 3) (constant 1) 0 default_eps default_max_its = Return 3.
Proof.
  apply (newton_raphson_cap_mono (linear 3) (constant 1) 0 default_eps 1
           default_max_its 3).
  - lia.
  - unfold default_max_its. lia.
  - reflexivity.
Defined.

(** From the root 3 itself. *)
Lemma newton_raphson_fixed_point_witness :
  newton_raphson_loop (linear 3) (constant one) 3 default_eps default_max_its =
    Return (mk_nr (-1) 3 3) /\
  newton_raphson (linear 3) (constant one) 3 default_eps default_max_its = Return 3.
Proof.
  apply (newton_raphson_fixed_point (linear 3) (constant one) 3 default_eps
           default_max_its).
  - reflexivity.
  - reflexivity.
  - reflexivity.
  - unfold default_max_its. lia.
Defined.

(** The run on [x * x - 2] over [0, 2] with the defaults. *)
Lemma bisection_returns_small_residual_witness :
  (exists y, square_minus_two 1.414215087890625 = Return y /\
             ((num_abs y >? default_eps)%num = false \/ (y ==? zero)%num = true)) /\
  (exists s, bisection_loop 15 square_minus_two 0 2 default_eps = Return s /\
             c s = 1.414215087890625 /\ (0 <= its s < default_max_its)%Z).
Proof.
  apply (bisection_returns_small_residual 15 square_minus_two 0 2 default_eps
           1.414215087890625 default_max_its).
  reflexivity.
Defined.

Lemma bisection_float_residual_witness :
  exists y, square_minus_two 1.414215087890625 = Return y /\
            (num_abs y >? default_eps)%num = false.
Proof.
  apply (bisection_float_residual 15 square_minus_two 0 2 default_eps
           1.414215087890625 default_max_its);
    reflexivity.
Defined.

(** [f(x) = x - 1] over [1, 3]: the left end is the root. *)
Lemma bisection_root_at_end_rejected_witness :
  bisection 1 (linear 1) 1 3 default_eps default_max_its =
    Raise (ValueError not_same_sign_msg).
Proof.
  apply (bisection_root_at_end_rejected 0 (linear 1) 1 3 default_eps 0 2 1
           default_max_its);
    try reflexivity.
  left. reflexivity.
Defined.

(** The step from -1 to 1 at 1/3, over [0, 1]. *)
Lemma bisection_two_valued_diverges_witness :
  bisection 1000 (step_at 0x1.5555555555555p-2 (-1) 1) 0 1 default_eps
    default_max_its = OutOfFuel.
Proof.
  apply (bisection_two_valued_diverges 1000 (step_at 0x1.5555555555555p-2 (-1) 1)
           0 1 default_eps (-1) 1 default_max_its);
    try reflexivity.
  - intros x. unfold step_at.
    destruct (x <? 0x1.5555555555555p-2)%num; [left | right]; reflexivity.
  - intros x. exists (x / 2). reflexivity.
Defined.

(** [f(x) = x * x + 1] with a derivative that is zero. *)
Lemma solve_float_pure_exceptions_witness :
  (ZeroDivisionError = ZeroDivisionError /\
   newton_raphson (pure_fn (fun x => x * x + 1)) (pure_fn (fun _ => 0)) 0
     default_eps 0 = Raise ZeroDivisionError) \/
  (ZeroDivisionError = ConvergenceError (exceeded_msg default_max_its) /\
   bisection 30 (pure_fn (fun x => x * x + 1)) 0 1 default_eps default_max_its =
     Raise ZeroDivisionError).
Proof.
  apply (solve_float_pure_exceptions 30 (fun x => x * x + 1) (fun _ => 0) 0 1
           default_eps 0 default_max_its ZeroDivisionError).
  reflexivity.
Defined.

(** From infinity, on [f(x) = x - 3]: the first update is a NaN. *)
Lemma newton_raphson_nan_returned_witness :
  newton_raphson_loop (linear 3) (constant 1) infinity default_eps default_max_its =
    Return (mk_nr (-1) infinity nan) /\
  newton_raphson (linear 3) (constant 1) infinity default_eps default_max_its =
    Return nan.
Proof.
  apply (newton_raphson_nan_returned (linear 3) (constant 1) infinity default_eps
           default_max_its).
  - reflexivity.
  - unfold default_max_its. lia.
Defined.

(** A function that is NaN everywhere, over [0, 1]. *)
Lemma bisection_nan_returned_witness :
  bisection 0 (constant nan) 0 1 default_eps default_max_its = Return ((0 + 1) / 2).
Proof.
  apply (bisection_nan_returned 0 (constant nan) 0 1 default_eps default_max_its).
  - reflexivity.
  - unfold default_max_its. lia.
Defined.

(** On [f(x) = x - 3] with derivative 1, from 0. *)
Lemma solve_float_value_witness :
  (exists xr, g (linear 3) (constant 1) xr = Return 3 /\
              (num_abs (3 - xr) >? default_eps)%num = false) \/
  (exists y, linear 3 3 = Return y /\ (num_abs y >? default_eps)%num = false).
Proof.
  apply (solve_float_value 0 (linear 3) (constant 1) 0 1 default_eps 3
           default_max_its default_max_its).
  - unfold default_max_its. lia.
  - reflexivity.
  - reflexivity.
Defined.


(** [f(x) = x * x - 2] over [0, 2] with the cap 0 for newton_raphson: the
    value is bisection's. *)
Lemma solve_some_iff_witness :
  newton_raphson square_minus_two (constant 1) 0 default_eps 0 =
    Return 1.414215087890625 \/
  (exists msg,
     newton_raphson square_minus_two (constant 1) 0 default_eps 0 =
       Raise (ConvergenceError msg) /\
     bisection 15 square_minus_two 0 2 default_eps default_max_its =
       Return 1.414215087890625).
Proof.
  apply (proj1 (solve_some_iff 15 square_minus_two (constant 1) 0 2 default_eps
                  1.414215087890625 0 default_max_its)).
  vm_compute. reflexivity.
Defined.

(** [f(x) = x - 3] from 0: the wording derives the root 3, under the
    default cap that the message of the error would carry. *)
Lemma newton_raphson_refines_spec_witness :
  exists msg : string,
    carries_cap msg default_max_its /\
    newton_raphson_spec (linear 3) (constant 1) 0 default_eps default_max_its msg
      (Return 3).
Proof.
  destruct (newton_raphson_refines_spec (linear 3) (constant 1) 0 default_eps
              default_max_its) as (msg & Hcap & Hspec).
  exists msg. split; [exact Hcap|].
  apply Hspec. vm_compute. reflexivity.
Defined.

(** [f(x) = x * x + 1] with a derivative that is zero: the division
    fails. *)
Lemma newton_raphson_pure_exceptions_witness :
  ZeroDivisionError = ZeroDivisionError \/
  ZeroDivisionError = ConvergenceError (exceeded_msg default_max_its).
Proof.
  apply (proj2 (newton_raphson_pure_exceptions (fun x => x * x + 1) (fun _ => 0) 0
                  default_eps default_max_its) ZeroDivisionError).
  vm_compute. reflexivity.
Defined.

End MoreRuns.

(** On rationals: [f(x) = x - 1] over [0, 4] with tolerance 1/100000.  One
    run of the loop body takes the bracket to [0, 2], whose midpoint 1 is
    the root. *)
Lemma bisection_rational_bracket_witness :
  let F := fun x : Qc => (x - Q2Qc 1)%Qc in
  let a0 := Q2Qc 0 in
  let b0 := Q2Qc 4 in
  let c1 := ((a0 + b0) / Q2Qc 2)%Qc in
  let s := mk_bis a0 c1 ((a0 + c1) / Q2Qc 2)%Qc 1 in
  c s = ((a s + b s) / Q2Qc 2)%Qc /\
  0 <= its s /\
  ((b s - a s) * Q2Qc 2 ^ Z.to_nat (its s) = b0 - a0)%Qc /\
  ((a0 <= b0)%Qc ->
     (a0 <= a s /\ a s <= c s /\ c s <= b s /\ b s <= b0)%Qc) /\
  ((F a0 * F b0 < Q2Qc 0)%Qc -> (F (a s) * F (b s) < Q2Qc 0)%Qc).
Proof.
  intros F a0 b0 c1 s.
  apply (bisection_rational_bracket 1 F a0 b0 (Q2Qc (1 # 100000)) s).
  reflexivity.
Defined.

(** The same run under a cap of 1: the run made is one too many. *)
Lemma bisection_rational_valid_bracket_witness :
  ConvergenceError (exceeded_msg 1) = ConvergenceError (exceeded_msg 1).
Proof.
  apply (bisection_rational_valid_bracket 1 (fun x : Qc => (x - Q2Qc 1)%Qc)
           (Q2Qc 0) (Q2Qc 4) (Q2Qc (1 # 100000)) 1
           (ConvergenceError (exceeded_msg 1))).
  - reflexivity.
  - reflexivity.
Defined.
